(** * A shallow embedding of [app.py]: catalogue enrichment, favourites and reviews

    The development follows the source file top to bottom.  Python values
    that come out of decoded JSON are a small inductive type; exceptions are
    an error monad; the two pieces of mutable state the program has (the
    network it talks to and the SQL store) are threaded explicitly.

    Text is the string of its UTF-8 bytes, a lone surrogate kept as the
    three bytes its code point would have.  What the interpreter's tables
    decide ([int] on digits outside ASCII, the rendering of floats) is a
    parameter of the environment. *)

From Stdlib Require Import ZArith String Ascii List Bool.
From stdpp Require Import base list gmap strings pretty sorting.

Local Open Scope string_scope.
Local Open Scope list_scope.
Local Open Scope Z_scope.
#[local] Set Warnings "-clear-no-such-hyp".

(** ** Python values *)

(** A float is kept as sign, mantissa and binary exponent: the program only
    tests floats for truth and truncates them with [int]. *)
Inductive pyfloat : Type :=
| FNan
| FInf (neg : bool)
| FFinite (neg : bool) (m : N) (e : Z).

(** What [json()] can return.  A dict is an association list in insertion
    order, the order [items()] walks it in. *)
#[warnings="-register-all"]
Inductive pyval : Type :=
| VNone
| VBool (b : bool)
| VInt (z : Z)
| VFloat (f : pyfloat)
| VStr (s : string)
| VList (l : list pyval)
| VDict (d : list (string * pyval)).

Inductive exn : Type :=
| AttributeError
| TypeError
| ValueError
| KeyError
| IndexError
| OverflowError
| RequestException
| HTTPError
| JSONDecodeError
| IntegrityError
| UnicodeEncodeError.

(** ** Exceptions and state *)

Inductive result (A : Type) : Type :=
| Ok (a : A)
| Raise (e : exn).
Arguments Ok {A} a.
Arguments Raise {A} e.

Definition rbind {A B : Type} (m : result A) (k : A -> result B) : result B :=
  match m with
  | Ok a => k a
  | Raise e => Raise e
  end.

(** A computation over a state [S] that may raise; the state reached when
    the exception is raised is kept, as a Python [except] clause sees it. *)
Definition M (S A : Type) : Type := S -> result A * S.

Definition ret {S A : Type} (a : A) : M S A := fun s => (Ok a, s).

Definition bind {S A B : Type} (m : M S A) (k : A -> M S B) : M S B :=
  fun s =>
    match m s with
    | (Ok a, s') => k a s'
    | (Raise e, s') => (Raise e, s')
    end.

Definition lift {S A : Type} (r : result A) : M S A := fun s => (r, s).

Definition raise {S A : Type} (e : exn) : M S A := lift (Raise e).

(** [try: body / except: handler] *)
Definition try_except {S A : Type} (body : M S A) (handler : exn -> M S A) : M S A :=
  fun s =>
    match body s with
    | (Ok a, s') => (Ok a, s')
    | (Raise e, s') => handler e s'
    end.

Notation "x <-? r ;; k" := (rbind r (fun x => k))
  (at level 20, r at level 99, k at level 200).
Notation "x <- m ;; k" := (bind m (fun x => k))
  (at level 20, m at level 99, k at level 200).
Notation "x <~ r ;; k" := (bind (lift r) (fun x => k))
  (at level 20, r at level 99, k at level 200).

(** ** The outside world *)

Record response : Type := {
  status_code : Z;
  text : string;
  json_body : option pyval    (* what [r.json()] decodes, if the body is JSON *)
}.

Inductive http_result : Type :=
| NetError                    (* connection error or timeout *)
| Reply (r : response).

(** The outside world: what a GET of a url answers after a given history of
    earlier requests; how [str.format] renders the values the program
    never inspects (floats, lists and dicts); and what [int] makes of a
    string that is not plain, one with a byte outside ASCII (the digit
    tables change with the Unicode version) or longer than the digit limit
    of recent interpreters. *)
Record environment : Type := {
  respond : list string -> string -> http_result;
  render : pyval -> string;
  int_text : string -> option Z
}.

(** ** Built-ins the program relies on *)

Definition ord (c : ascii) : Z := Z.of_N (N_of_ascii c).

Definition in_range (lo hi : Z) (c : ascii) : bool :=
  (lo <=? ord c) && (ord c <=? hi).

Definition is_digit (c : ascii) : bool := in_range 48 57 c.

Definition is_alnum (c : ascii) : bool :=
  is_digit c || in_range 65 90 c || in_range 97 122 c.

(** Truth value of an object, as [if x], [not x] and [x or y] use it. *)
Definition truthy (v : pyval) : bool :=
  match v with
  | VNone => false
  | VBool b => b
  | VInt z => negb (z =? 0)
  | VFloat (FFinite _ m _) => negb (m =? 0)%N
  | VFloat _ => true
  | VStr s => negb (String.eqb s "")
  | VList l => match l with [] => false | _ :: _ => true end
  | VDict d => match d with [] => false | _ :: _ => true end
  end.

(** [a or b], both already evaluated. *)
Definition py_or (a b : pyval) : pyval := if truthy a then a else b.

Fixpoint dict_lookup (d : list (string * pyval)) (k : string) : option pyval :=
  match d with
  | [] => None
  | (k', v) :: d' => if String.eqb k' k then Some v else dict_lookup d' k
  end.

(** [o.get(k, dflt)]: only a dict has the method. *)
Definition py_get_default (o : pyval) (k : string) (dflt : pyval) : result pyval :=
  match o with
  | VDict d => Ok (default dflt (dict_lookup d k))
  | _ => Raise AttributeError
  end.

(** [o.get(k)] *)
Definition py_get (o : pyval) (k : string) : result pyval := py_get_default o k VNone.

(** [o[k]] for a string key [k]. *)
Definition py_getitem (o : pyval) (k : string) : result pyval :=
  match o with
  | VDict d => match dict_lookup d k with Some v => Ok v | None => Raise KeyError end
  | _ => Raise TypeError
  end.

(** [o[0]] *)
Definition py_first (o : pyval) : result pyval :=
  match o with
  | VList (x :: _) => Ok x
  | VList [] => Raise IndexError
  | VStr (String c _) => Ok (VStr (String c ""))
  | VStr EmptyString => Raise IndexError
  | VDict _ => Raise KeyError
  | _ => Raise TypeError
  end.

Fixpoint chars (s : string) : list pyval :=
  match s with
  | EmptyString => []
  | String c s' => VStr (String c "") :: chars s'
  end.

(** The elements a [for] loop or a comprehension draws from [o]. *)
Definition py_iter (o : pyval) : result (list pyval) :=
  match o with
  | VList l => Ok l
  | VStr s => Ok (chars s)
  | VDict d => Ok (map (fun kv => VStr (fst kv)) d)
  | _ => Raise TypeError
  end.

(** [o.items()] *)
Definition py_items (o : pyval) : result (list (string * pyval)) :=
  match o with
  | VDict d => Ok d
  | _ => Raise AttributeError
  end.

(** *** [str.strip] and [int] *)

(** Whitespace for [str.strip]. *)
Definition is_space (c : ascii) : bool :=
  in_range 9 13 c || in_range 28 32 c.

(** Whitespace [int] skips around a numeral. *)
Definition is_int_space (c : ascii) : bool :=
  in_range 9 13 c || (ord c =? 32).

Fixpoint lstrip (p : ascii -> bool) (s : string) : string :=
  match s with
  | EmptyString => EmptyString
  | String c s' => if p c then lstrip p s' else s
  end.

Fixpoint rstrip (p : ascii -> bool) (s : string) : string :=
  match s with
  | EmptyString => EmptyString
  | String c s' =>
      let r := rstrip p s' in
      if p c && String.eqb r "" then EmptyString else String c r
  end.

(** Whitespace of two bytes: U+0085 and U+00A0. *)
Definition is_space2 (a b : ascii) : bool :=
  (ord a =? 194) && ((ord b =? 133) || (ord b =? 160)).

(** Whitespace of three bytes: U+1680, U+2000 to U+200A, U+2028, U+2029,
    U+202F, U+205F and U+3000. *)
Definition is_space3 (a b c : ascii) : bool :=
  ((ord a =? 225) && (ord b =? 154) && (ord c =? 128))
  || ((ord a =? 226) && (ord b =? 128)
      && (in_range 128 138 c || (ord c =? 168) || (ord c =? 169) || (ord c =? 175)))
  || ((ord a =? 226) && (ord b =? 129) && (ord c =? 159))
  || ((ord a =? 227) && (ord b =? 128) && (ord c =? 128)).

(** Whitespace characters dropped from the head of [s]; with [back] the
    bytes of [s] are read in reverse, the last byte of a character first. *)
Fixpoint drop_space (back : bool) (s : string) : string :=
  match s with
  | EmptyString => EmptyString
  | String c1 r1 =>
      if is_space c1 then drop_space back r1
      else
        match r1 with
        | EmptyString => s
        | String c2 r2 =>
            if (if back then is_space2 c2 c1 else is_space2 c1 c2) then drop_space back r2
            else
              match r2 with
              | EmptyString => s
              | String c3 r3 =>
                  if (if back then is_space3 c3 c2 c1 else is_space3 c1 c2 c3)
                  then drop_space back r3
                  else s
              end
        end
  end.

Definition string_rev (s : string) : string :=
  string_of_list_ascii (rev (list_ascii_of_string s)).

(** [s.strip()] *)
Definition strip (s : string) : string :=
  string_rev (drop_space true (string_rev (drop_space false s))).

(** Decimal digits with single underscores between them; [prev] tells
    whether the character just read was a digit. *)
Fixpoint parse_digits (acc : Z) (prev : bool) (s : string) : option Z :=
  match s with
  | EmptyString => if prev then Some acc else None
  | String c s' =>
      if is_digit c then parse_digits (10 * acc + (ord c - 48)) true s'
      else if Ascii.eqb c "_" && prev then parse_digits acc false s'
      else None
  end.

(** [int(s)] for a string of ASCII: surrounding whitespace, an optional
    sign, digits. *)
Definition int_of_ascii (s : string) : option Z :=
  match rstrip is_int_space (lstrip is_int_space s) with
  | String "+" r => parse_digits 0 false r
  | String "-" r => Z.opp <$> parse_digits 0 false r
  | t => parse_digits 0 false t
  end.

(** A plain string: ASCII only, and no longer than the 4300 digits every
    interpreter converts. *)
Definition is_plain (s : string) : bool :=
  forallb (fun c => ord c <? 128) (list_ascii_of_string s)
  && (Z.of_nat (String.length s) <=? 4300).

(** [int(s)] for a string. *)
Definition int_of_string (E : environment) (s : string) : option Z :=
  if is_plain s then int_of_ascii s else int_text E s.

(** [int(f)] for a float truncates towards zero. *)
Definition int_of_float (f : pyfloat) : result Z :=
  match f with
  | FNan => Raise ValueError
  | FInf _ => Raise OverflowError
  | FFinite neg m e =>
      let a := Z.shiftl (Z.of_N m) e in
      Ok (if neg then - a else a)
  end.

(** [int(v)] *)
Definition py_int (E : environment) (v : pyval) : result Z :=
  match v with
  | VInt z => Ok z
  | VBool b => Ok (if b then 1 else 0)
  | VFloat f => int_of_float f
  | VStr s => match int_of_string E s with Some z => Ok z | None => Raise ValueError end
  | VNone | VList _ | VDict _ => Raise TypeError
  end.

(** [str(n)] for an integer *)
Definition str_of_int (n : Z) : string := pretty n.

(** *** [requests.utils.quote] *)

Definition hex_digit (n : Z) : ascii :=
  default "0"%char (String.get (Z.to_nat n) "0123456789ABCDEF").

Definition is_unreserved (c : ascii) : bool :=
  is_alnum c || Ascii.eqb c "_" || Ascii.eqb c "." || Ascii.eqb c "-" || Ascii.eqb c "~".

Definition quote_char (c : ascii) : string :=
  if is_unreserved c || Ascii.eqb c "/" then String c ""
  else String "%" (String (hex_digit (ord c / 16)) (String (hex_digit (ord c mod 16)) "")).

Fixpoint quote (s : string) : string :=
  match s with
  | EmptyString => EmptyString
  | String c s' => quote_char c +:+ quote s'
  end.

(** *** [re.search(r"watch\?v=([A-Za-z0-9_-]{11})", text)] *)

Definition is_id_char (c : ascii) : bool :=
  is_alnum c || Ascii.eqb c "_" || Ascii.eqb c "-".

(** [s] without the prefix [p], when it starts with it. *)
Fixpoint strip_prefix (p s : string) : option string :=
  match p, s with
  | EmptyString, _ => Some s
  | String a p', String b s' => if Ascii.eqb a b then strip_prefix p' s' else None
  | String _ _, EmptyString => None
  end.

(** The first [n] characters of [s], when there are [n] and all are
    identifier characters. *)
Fixpoint take_id (n : nat) (s : string) : option string :=
  match n with
  | O => Some EmptyString
  | S n' =>
      match s with
      | String c s' => if is_id_char c then String c <$> take_id n' s' else None
      | EmptyString => None
      end
  end.

(** A match anchored at the start of [s]; the result is group 1. *)
Definition match_here (s : string) : option string :=
  match strip_prefix "watch?v=" s with
  | Some rest => take_id 11 rest
  | None => None
  end.

(** The leftmost match in [s]. *)
Fixpoint re_search (s : string) : option string :=
  match match_here s with
  | Some vid => Some vid
  | None =>
      match s with
      | EmptyString => None
      | String _ s' => re_search s'
      end
  end.

(** ** The network *)

(** The state of a request handler towards the network is the list of urls
    it has requested so far, oldest first. *)
Definition trace : Type := list string.

Definition Net (A : Type) : Type := M trace A.

(** [requests.get(url, timeout=...)] *)
Definition requests_get (E : environment) (url : string) : Net response :=
  fun tr =>
    match respond E tr url with
    | NetError => (Raise RequestException, tr ++ [url])
    | Reply r => (Ok r, tr ++ [url])
    end.

(** [r.raise_for_status()] *)
Definition raise_for_status (r : response) : result unit :=
  if (400 <=? status_code r) && (status_code r <? 600) then Raise HTTPError else Ok tt.

(** [r.json()] *)
Definition response_json (r : response) : result pyval :=
  match json_body r with
  | Some j => Ok j
  | None => Raise JSONDecodeError
  end.

(** [f"{v}"] *)
Definition py_format (E : environment) (v : pyval) : string :=
  match v with
  | VStr s => s
  | VNone => "None"
  | VBool true => "True"
  | VBool false => "False"
  | VInt z => str_of_int z
  | _ => render E v
  end.

(** ** YouTube fallback *)

Definition youtube_search_url (E : environment) (game_name : pyval) : string :=
  "https://www.youtube.com/results?search_query="
  +:+ quote (py_format E game_name +:+ " official trailer").

Definition youtube_embed_url (video_id : string) : string :=
  "https://www.youtube.com/embed/" +:+ video_id.

(** [s] holds a lone surrogate: the byte ED followed by a byte from A0 to
    BF.  Such a string has no UTF-8 encoding. *)
Fixpoint has_surrogate (s : string) : bool :=
  match s with
  | EmptyString => false
  | String a r =>
      match r with
      | EmptyString => false
      | String b _ => ((ord a =? 237) && in_range 160 191 b) || has_surrogate r
      end
  end.

(** The query [f"{game_name} official trailer"]. *)
Definition search_query (E : environment) (game_name : pyval) : string :=
  py_format E game_name +:+ " official trailer".

(** [requests.utils.quote(q)] encodes [q] first, and raises when it cannot. *)
Definition quote_checked (q : string) : result string :=
  if has_surrogate q then Raise UnicodeEncodeError else Ok (quote q).

(** [search_youtube_trailer(game_name)] *)
Definition search_youtube_trailer (E : environment) (game_name : pyval) : Net pyval :=
  try_except
    (quoted <~ quote_checked (search_query E game_name) ;;
     r <- requests_get E ("https://www.youtube.com/results?search_query=" +:+ quoted) ;;
     match re_search (text r) with
     | Some video_id => ret (VStr (youtube_embed_url video_id))
     | None => ret VNone
     end)
    (fun _ => ret VNone).

(** ** Steam API *)

Module Game.
(** The dict [get_steam_game] returns. *)
Record t : Type := {
  appid : Z;
  name : pyval;
  short_description : pyval;
  header_image : pyval;
  genres : list pyval;
  price : pyval;
  store_link : string;
  trailer_url : pyval
}.
End Game.

Definition appdetails_url (appid : Z) (lang : string) : string :=
  "https://store.steampowered.com/api/appdetails?appids=" +:+ str_of_int appid
  +:+ "&l=" +:+ lang.

Fixpoint is_substring (p s : string) : bool :=
  String.prefix p s ||
  match s with
  | EmptyString => false
  | String _ s' => is_substring p s'
  end.

Definition is_str (key : string) (v : pyval) : bool :=
  match v with
  | VStr s => String.eqb s key
  | _ => false
  end.

(** [key in j and j[key].get("success")]: the entry [j[key]] when the test
    holds, [None] when it does not. *)
Definition details_entry (key : string) (j : pyval) : result (option pyval) :=
  match j with
  | VDict d =>
      match dict_lookup d key with
      | Some entry =>
          s <-? py_get entry "success" ;;
          Ok (if truthy s then Some entry else None)
      | None => Ok None
      end
  | VList l => if existsb (is_str key) l then Raise TypeError else Ok None
  | VStr s => if is_substring key s then Raise TypeError else Ok None
  | _ => Raise TypeError
  end.

(** [[g.get("description") for g in d.get("genres", [])]] *)
Fixpoint genre_names (gs : list pyval) : result (list pyval) :=
  match gs with
  | [] => Ok []
  | g :: gs' =>
      n <-? py_get g "description" ;;
      ns <-? genre_names gs' ;;
      Ok (n :: ns)
  end.

Definition genres_of (d : pyval) : result (list pyval) :=
  gv <-? py_get_default d "genres" (VList []) ;;
  gs <-? py_iter gv ;;
  genre_names gs.

(** [d.get("price_overview", {}).get("final_formatted")
     or ("Free" if d.get("is_free") else "—")] *)
Definition price_of (d : pyval) : result pyval :=
  po <-? py_get_default d "price_overview" (VDict []) ;;
  ff <-? py_get po "final_formatted" ;;
  if truthy ff then Ok ff
  else
    fr <-? py_get d "is_free" ;;
    Ok (if truthy fr then VStr "Free" else VStr "—").

(** [m.get("max") or m.get("480")] *)
Definition max_or_480 (m : pyval) : result pyval :=
  a <-? py_get m "max" ;;
  if truthy a then Ok a else py_get m "480".

(** The Steam trailer attempt: the value of [trailer] before the fallback. *)
Definition steam_trailer (d : pyval) : result pyval :=
  mv <-? py_get d "movies" ;;
  let movies := py_or mv (VList []) in
  if truthy movies then
    first <-? py_first movies ;;
    w <-? py_get first "webm" ;;
    let webm := py_or w (VDict []) in
    trailer <-? max_or_480 webm ;;
    if negb (truthy trailer) then
      m <-? py_get first "mp4" ;;
      let mp4 := py_or m (VDict []) in
      max_or_480 mp4
    else Ok trailer
  else Ok VNone.

Definition store_url (appid : Z) : string :=
  "https://store.steampowered.com/app/" +:+ str_of_int appid.

(** The body of the [if key in j and ...] branch, from [d = j[key]["data"]]
    to the returned dict. *)
Definition game_of_data (E : environment) (appid : Z) (d : pyval) : Net Game.t :=
  header_image <~ py_get d "header_image" ;;
  sd <~ py_get d "short_description" ;;
  let short := py_or sd (VStr "") in
  genres <~ genres_of d ;;
  price <~ price_of d ;;
  trailer0 <~ steam_trailer d ;;
  trailer <- (if negb (truthy trailer0)
              then (nm <~ py_get d "name" ;; search_youtube_trailer E nm)
              else ret trailer0) ;;
  nm <~ py_get d "name" ;;
  ret {| Game.appid := appid;
         Game.name := nm;
         Game.short_description := short;
         Game.header_image := header_image;
         Game.genres := genres;
         Game.price := price;
         Game.store_link := store_url appid;
         Game.trailer_url := trailer |}.

Definition get_steam_game_body (E : environment) (appid : Z) (lang : string)
  : Net (option Game.t) :=
  r <- requests_get E (appdetails_url appid lang) ;;
  u <~ raise_for_status r ;;
  j <~ response_json r ;;
  let key := str_of_int appid in
  oe <~ details_entry key j ;;
  match oe with
  | Some entry =>
      d <~ py_getitem entry "data" ;;
      g <- game_of_data E appid d ;;
      ret (Some g)
  | None => ret None
  end.

(** [get_steam_game(appid, lang)]; the handler's diagnostic [print] is not
    modelled. *)
Definition get_steam_game (E : environment) (appid : Z) (lang : string)
  : Net (option Game.t) :=
  try_except (get_steam_game_body E appid lang) (fun _ => ret None).

(** *** Top sellers *)

Definition featured_url : string :=
  "https://store.steampowered.com/api/featuredcategories".

(** One turn of either inner loop:
    [appid = item.get("id") or item.get("appid"); if appid: sellers.append(int(appid))] *)
Definition collect_item (E : environment) (item : pyval) (sellers : list Z)
  : result (list Z) :=
  a <-? py_get item "id" ;;
  appid <-? (if truthy a then Ok a else py_get item "appid") ;;
  if truthy appid then
    k <-? py_int E appid ;;
    Ok (sellers ++ [k])
  else Ok sellers.

Fixpoint collect_items (E : environment) (items : list pyval) (sellers : list Z)
  : result (list Z) :=
  match items with
  | [] => Ok sellers
  | item :: rest =>
      sellers' <-? collect_item E item sellers ;;
      collect_items E rest sellers'
  end.

(** The two [if]s on one value of the categories object. *)
Definition collect_value (E : environment) (val : pyval) (sellers : list Z)
  : result (list Z) :=
  sellers1 <-? match val with
               | VList l =>
                   match l with
                   | VDict _ :: _ => collect_items E l sellers
                   | _ => Ok sellers
                   end
               | _ => Ok sellers
               end ;;
  match val with
  | VDict d =>
      match dict_lookup d "items" with
      | Some (VList its) => collect_items E its sellers1
      | _ => Ok sellers1
      end
  | _ => Ok sellers1
  end.

(** [for key, val in j.items(): ...] *)
Fixpoint collect_sellers (E : environment) (entries : list (string * pyval))
    (sellers : list Z) : result (list Z) :=
  match entries with
  | [] => Ok sellers
  | (_, val) :: rest =>
      sellers' <-? collect_value E val sellers ;;
      collect_sellers E rest sellers'
  end.

(** The de-duplicating loop with its [break]. *)
Fixpoint dedup_loop (limit : Z) (sellers out : list Z) (seen : gset Z) : list Z :=
  match sellers with
  | [] => out
  | a :: rest =>
      let '(out', seen') :=
        if bool_decide (a ∈ seen) then (out, seen) else (out ++ [a], {[a]} ∪ seen) in
      if limit <=? Z.of_nat (length out') then out'
      else dedup_loop limit rest out' seen'
  end.

(** [fetch_top_sellers(limit)] *)
Definition fetch_top_sellers (E : environment) (limit : Z) : Net (list Z) :=
  try_except
    (r <- requests_get E featured_url ;;
     u <~ raise_for_status r ;;
     j <~ response_json r ;;
     entries <~ py_items j ;;
     sellers <~ collect_sellers E entries [] ;;
     ret (dedup_loop limit sellers [] ∅))
    (fun _ => ret []).

(** ** The home page *)

(** [[get_steam_game(aid) for aid in top_ids if get_steam_game(aid)]]: the
    condition and the element are two calls. *)
Fixpoint index_games (E : environment) (top_ids : list Z) : Net (list (option Game.t)) :=
  match top_ids with
  | [] => ret []
  | aid :: rest =>
      c <- get_steam_game E aid "english" ;;
      match c with
      | Some _ =>
          g <- get_steam_game E aid "english" ;;
          gs <- index_games E rest ;;
          ret (g :: gs)
      | None => index_games E rest
      end
  end.

(** [index()]: the [games] handed to the template. *)
Definition index (E : environment) : Net (list (option Game.t)) :=
  top_ids <- fetch_top_sellers E 9 ;;
  index_games E top_ids.

(** ** Database models *)

Module Favourite.
Record t : Type := {
  id : Z;
  appid : Z;
  name : string;
  image : option string;
  added_at : Z
}.
End Favourite.

Module Review.
Record t : Type := {
  id : Z;
  appid : Z;
  rating : Z;
  text : string;
  created_at : Z
}.
End Review.

(** The two tables, each in rowid order. *)
Record store : Type := {
  favourites : list Favourite.t;
  reviews : list Review.t
}.

Definition Db (A : Type) : Type := M store A.

(** The primary key SQLite gives a new row: 1 in an empty table, else one
    more than the largest in use (below the largest integer of 64 bits,
    which a table filled by this application does not reach). *)
Definition next_id (ids : list Z) : Z :=
  match ids with
  | [] => 1
  | i :: rest => 1 + foldr Z.max i rest
  end.

(** An SQLite INTEGER is a signed integer of 64 bits. *)
Definition fits_int64 (k : Z) : bool := (- 2 ^ 63 <=? k) && (k <? 2 ^ 63).

(** Binding a Python integer to a statement: one that does not fit raises
    before the statement runs. *)
Definition bind_integer (k : Z) : Db unit :=
  if fits_int64 k then ret tt else raise OverflowError.

(** Text that has a UTF-8 encoding: no lone surrogate. *)
Definition encodable (o : option string) : bool :=
  match o with
  | Some t => negb (has_surrogate t)
  | None => true
  end.

(** Binding a Python string, or [None], to a statement: a string without
    an encoding raises before the statement runs. *)
Definition bind_text (o : option string) : Db unit :=
  if encodable o then ret tt else raise UnicodeEncodeError.

(** [Favourite.query.filter_by(appid=k).first()] *)
Definition first_favourite (k : Z) : Db (option Favourite.t) :=
  u <- bind_integer k ;;
  fun s => (Ok (List.find (fun r => Favourite.appid r =? k) (favourites s)), s).

(** The row [Favourite(appid=k, name=n, image=image)] becomes on commit;
    [now] is what the column default [datetime.utcnow] reads. *)
Definition new_favourite (now k : Z) (n : string) (image : option string) (s : store)
  : Favourite.t :=
  {| Favourite.id := next_id (Favourite.id <$> favourites s);
     Favourite.appid := k;
     Favourite.name := n;
     Favourite.image := image;
     Favourite.added_at := now |}.

(** [db.session.add(Favourite(appid=k, name=name, image=image)); db.session.commit()]:
    the values are bound in column order, then the statement runs; [name]
    is [nullable=False]. *)
Definition insert_favourite (now k : Z) (name image : option string) : Db unit :=
  u <- bind_integer k ;;
  v <- bind_text name ;;
  w <- bind_text image ;;
  fun s =>
    match name with
    | None => (Raise IntegrityError, s)
    | Some n =>
        (Ok tt, {| favourites := favourites s ++ [new_favourite now k n image s];
                   reviews := reviews s |})
    end.

(** [db.session.delete(row); db.session.commit()]: the row goes by its
    primary key. *)
Definition delete_favourite (row : Favourite.t) : Db unit :=
  fun s =>
    (Ok tt,
     {| favourites := filter (fun r => Favourite.id r <> Favourite.id row) (favourites s);
        reviews := reviews s |}).

(** The row [Review(appid=k, rating=rating, text=txt)] becomes on commit. *)
Definition new_review (now k rating : Z) (txt : string) (s : store) : Review.t :=
  {| Review.id := next_id (Review.id <$> reviews s);
     Review.appid := k;
     Review.rating := rating;
     Review.text := txt;
     Review.created_at := now |}.

(** [db.session.add(Review(...)); db.session.commit()]: the values are
    bound in column order, then the statement runs. *)
Definition insert_review (now k rating : Z) (txt : string) : Db unit :=
  u <- bind_integer k ;;
  v <- bind_integer rating ;;
  w <- bind_text (Some txt) ;;
  fun s =>
    (Ok tt, {| favourites := favourites s;
               reviews := reviews s ++ [new_review now k rating txt s] |}).

(** A form field as the value [request.form.get] returns. *)
Definition of_form (o : option string) : pyval :=
  match o with
  | Some s => VStr s
  | None => VNone
  end.

(** [text.strip()] on a form field *)
Definition strip_field (o : option string) : result string :=
  match o with
  | Some s => Ok (strip s)
  | None => Raise AttributeError
  end.

(** ** Favourites *)

(** [add_favourite_db(appid, name, image)] *)
Definition add_favourite_db (E : environment) (now : Z) (appid : pyval)
    (name image : option string) : Db bool :=
  k <~ py_int E appid ;;
  existing <- first_favourite k ;;
  match existing with
  | Some _ => ret false
  | None =>
      k' <~ py_int E appid ;;
      u <- insert_favourite now k' name image ;;
      ret true
  end.

(** [remove_favourite_db(appid)] *)
Definition remove_favourite_db (E : environment) (appid : pyval) : Db bool :=
  k <~ py_int E appid ;;
  row <- first_favourite k ;;
  match row with
  | None => ret false
  | Some r =>
      u <- delete_favourite r ;;
      ret true
  end.

(** ** Reviews *)

(** [add_review_db(appid, rating, text)] *)
Definition add_review_db (E : environment) (now : Z) (appid rating : pyval)
    (txt : option string) : Db bool :=
  k <~ py_int E appid ;;
  r <~ py_int E rating ;;
  t <~ strip_field txt ;;
  u <- insert_review now k r t ;;
  ret true.

(** ** Routes *)

(** What a handler that ends in [redirect(...)] leaves behind: the messages
    it flashed, with their categories, and the target. *)
Record redirect : Type := {
  flashed : list (string * string);
  location : string
}.

Definition form : Type := list (string * string).

(** [request.form.get(k)] *)
Fixpoint form_get (f : form) (k : string) : option string :=
  match f with
  | [] => None
  | (k', v) :: f' => if String.eqb k' k then Some v else form_get f' k
  end.

(** [not x] for a form field: missing or empty. *)
Definition blank (o : option string) : bool := negb (truthy (of_form o)).

Definition index_url : string := "/".
Definition favourites_url : string := "/favourites".
Definition game_detail_url (appid : Z) : string := "/game/" +:+ str_of_int appid.

Definition review_warning (appid : Z) : redirect :=
  {| flashed := [("Please provide both a rating and a review.", "warning")];
     location := game_detail_url appid |}.

Definition review_submitted (appid : Z) : redirect :=
  {| flashed := [("Review submitted!", "success")];
     location := game_detail_url appid |}.

(** [add_review_route(appid)] *)
Definition add_review_route (E : environment) (now appid : Z) (f : form) : Db redirect :=
  let rating := form_get f "rating" in
  let txt := form_get f "text" in
  invalid <~ (if blank rating then Ok true
              else t <-? strip_field txt ;; Ok (String.eqb t "")) ;;
  if (invalid : bool) then ret (review_warning appid)
  else
    u <- add_review_db E now (VInt appid) (of_form rating) txt ;;
    ret (review_submitted appid).

(** [request.referrer or fallback] *)
Definition referrer_or (referrer : option string) (fallback : string) : string :=
  match referrer with
  | Some u => if String.eqb u "" then fallback else u
  | None => fallback
  end.

(** [favourites_add()] *)
Definition favourites_add (E : environment) (now : Z) (f : form)
    (referrer : option string) : Db redirect :=
  let appid := form_get f "appid" in
  let name := form_get f "name" in
  let image := form_get f "image" in
  if blank appid || blank name then
    ret {| flashed := [("Missing game details.", "warning")];
           location := referrer_or referrer index_url |}
  else
    ok <- add_favourite_db E now (of_form appid) name image ;;
    ret {| flashed := [(if (ok : bool) then "Added to favourites."
                        else "Already in favourites.", "info")];
           location := referrer_or referrer favourites_url |}.

(** [favourites_remove()] *)
Definition favourites_remove (E : environment) (f : form) : Db redirect :=
  let appid := form_get f "appid" in
  if blank appid then
    ret {| flashed := [("No app specified.", "warning")];
           location := favourites_url |}
  else
    removed <- remove_favourite_db E (of_form appid) ;;
    ret {| flashed := [(if (removed : bool) then "Removed from favourites."
                        else "Not in favourites.", "info")];
           location := favourites_url |}.

(** ** Vocabulary of the statements *)

(** The appids of the favourites table, row by row. *)
Definition favourite_appids (s : store) : list Z := Favourite.appid <$> favourites s.

(** Every appid is in at most one row of the favourites table. *)
Definition unique_appid (s : store) : Prop := NoDup (favourite_appids s).

(** The primary key of the favourites table is a key. *)
Definition unique_id (s : store) : Prop := NoDup (Favourite.id <$> favourites s).

(** The rows of the favourites table for appid [k]. *)
Definition rows_of (k : Z) (s : store) : list Favourite.t :=
  filter (fun r => Favourite.appid r = k) (favourites s).

(** The operations of the persistence layer, as requests arrive. *)
Inductive store_op : Type :=
| AddFavourite (now : Z) (appid : pyval) (name image : option string)
| RemoveFavourite (appid : pyval)
| AddReview (now : Z) (appid rating : pyval) (txt : option string).

(** The store an operation leaves, whether it returns or raises; each
    operation runs in a request, and so in a database session, of its own. *)
Definition run_op (E : environment) (s : store) (op : store_op) : store :=
  match op with
  | AddFavourite now appid name image => snd (add_favourite_db E now appid name image s)
  | RemoveFavourite appid => snd (remove_favourite_db E appid s)
  | AddReview now appid rating txt => snd (add_review_db E now appid rating txt s)
  end.

Definition run_ops (E : environment) (ops : list store_op) (s : store) : store :=
  foldl (run_op E) s ops.

Definition store0 : store := {| favourites := []; reviews := [] |}.

(** The success flag of a details response: the entry for the appid is an
    object whose [success] field is true. *)
Definition success_flag (key : string) (j : pyval) : bool :=
  match j with
  | VDict d =>
      match dict_lookup d key with
      | Some (VDict e) => truthy (default VNone (dict_lookup e "success"))
      | _ => false
      end
  | _ => false
  end.

(** The ways a details fetch fails: the network or a timeout, an HTTP error
    status, a body that is not JSON, a success flag that is not set. *)
Inductive fetch_failure (E : environment) (appid : Z) (lang : string) (tr : trace) : Prop :=
| network_failure :
    respond E tr (appdetails_url appid lang) = NetError ->
    fetch_failure E appid lang tr
| status_failure (r : response) :
    respond E tr (appdetails_url appid lang) = Reply r ->
    raise_for_status r = Raise HTTPError ->
    fetch_failure E appid lang tr
| decode_failure (r : response) :
    respond E tr (appdetails_url appid lang) = Reply r ->
    json_body r = None ->
    fetch_failure E appid lang tr
| flag_failure (r : response) (j : pyval) :
    respond E tr (appdetails_url appid lang) = Reply r ->
    json_body r = Some j ->
    success_flag (str_of_int appid) j = false ->
    fetch_failure E appid lang tr.

(** A successful response: it arrived, its status is no error, it decodes
    and its success flag is set. *)
Definition successful_response (E : environment) (appid : Z) (lang : string) (tr : trace)
  : Prop :=
  exists r j,
    respond E tr (appdetails_url appid lang) = Reply r
    /\ raise_for_status r = Ok tt
    /\ json_body r = Some j
    /\ success_flag (str_of_int appid) j = true.

(** The [data] object the enrichment works on, when the fetch gets that far. *)
Definition details_data (E : environment) (appid : Z) (lang : string) (tr : trace)
  : option pyval :=
  match respond E tr (appdetails_url appid lang) with
  | NetError => None
  | Reply r =>
      match u <-? raise_for_status r ;;
            j <-? response_json r ;;
            oe <-? details_entry (str_of_int appid) j ;;
            match oe with
            | Some entry => d <-? py_getitem entry "data" ;; Ok (Some d)
            | None => Ok None
            end
      with
      | Ok od => od
      | Raise _ => None
      end
  end.

(** An embeddable url [https://www.youtube.com/embed/<id>] with an id of
    eleven characters out of letters, digits, [_] and [-]. *)
Definition embed_url (v : pyval) : Prop :=
  exists vid,
    v = VStr (youtube_embed_url vid)
    /\ String.length vid = 11%nat
    /\ forallb is_id_char (list_ascii_of_string vid) = true.

(** [o[a][b]] read leniently: [None] wherever the path is not there. *)
Definition field2 (o : pyval) (a b : string) : pyval :=
  match o with
  | VDict m =>
      match dict_lookup m a with
      | Some (VDict x) => default VNone (dict_lookup x b)
      | _ => VNone
      end
  | _ => VNone
  end.

(** The trailer urls of one movie entry in the order of preference
    webm-max, webm-480, mp4-max, mp4-480. *)
Definition trailer_candidates (movie : pyval) : list pyval :=
  [field2 movie "webm" "max"; field2 movie "webm" "480";
   field2 movie "mp4" "max"; field2 movie "mp4" "480"].

(** The entries of the item's movie media. *)
Definition movie_media (d : pyval) : list pyval :=
  match d with
  | VDict m =>
      match dict_lookup m "movies" with
      | Some (VList ms) => ms
      | _ => []
      end
  | _ => []
  end.

(** The candidates of the first entry only. *)
Definition first_movie_candidates (d : pyval) : list pyval :=
  match movie_media d with
  | m :: _ => trailer_candidates m
  | [] => []
  end.

(** The native trailer as the specification words it: the first url found
    anywhere in the movie media, each entry read in the order of
    preference; [None] when there is none. *)
Definition native_trailer_spec (d : pyval) : pyval :=
  default VNone (List.find truthy (concat (trailer_candidates <$> movie_media d))).

(** De-duplication in first-seen order, [seen] being excluded from the start. *)
Fixpoint first_seen (seen : gset Z) (l : list Z) : list Z :=
  match l with
  | [] => []
  | a :: rest =>
      if bool_decide (a ∈ seen) then first_seen seen rest
      else a :: first_seen ({[a]} ∪ seen) rest
  end.

(** The sellers the categories object lists, before de-duplication. *)
Definition listed_sellers (E : environment) (j : pyval) : result (list Z) :=
  entries <-? py_items j ;;
  collect_sellers E entries [].

(** An environment that answers a url the same way whatever was requested
    before. *)
Definition stable (E : environment) : Prop :=
  forall tr tr' url, respond E tr url = respond E tr' url.

(** The result of a computation does not depend on the requests made before it. *)
Definition history_free {A : Type} (m : Net A) : Prop :=
  forall tr tr', fst (m tr) = fst (m tr').

(** Enrichment of [aid] succeeds (asked with no request made before). *)
Definition enriches (E : environment) (aid : Z) : bool :=
  match fst (get_steam_game E aid "english" []) with
  | Ok (Some _) => true
  | _ => false
  end.

(** The appid of each entry of a feed, [None] for a hole. *)
Definition feed_appids (games : list (option Game.t)) : list (option Z) :=
  (fun o : option Game.t => Game.appid <$> o) <$> games.

(** The trailer of the item a fetch returned, with the requests it made. *)
Definition trailer_of (p : result (option Game.t) * trace) : option pyval * trace :=
  match p with
  | (Ok (Some g), tr) => (Some (Game.trailer_url g), tr)
  | (_, tr) => (None, tr)
  end.

(** ** Scenarios *)

(** The scenarios use plain strings only: their environments render nothing
    and convert no string that is not plain. *)

Definition json_reply (j : pyval) : http_result :=
  Reply {| status_code := 200; text := EmptyString; json_body := Some j |}.

Definition html_reply (page : string) : http_result :=
  Reply {| status_code := 200; text := page; json_body := None |}.

(** A details response for [appid] with the success flag set. *)
Definition details_of (appid : Z) (d : pyval) : pyval :=
  VDict [(str_of_int appid, VDict [("success", VBool true); ("data", d)])].

Definition counter_strike (extra : list (string * pyval)) : pyval :=
  VDict ([("name", VStr "Counter-Strike"); ("header_image", VStr "cs.jpg")] ++ extra).

Definition results_page : string :=
  "<a href=/watch?v=abc12345678>Counter-Strike official trailer</a>".

(** The catalogue knows appid 10 only; the video site answers every search
    with one result. *)
Definition scenario (extra : list (string * pyval)) : environment :=
  {| respond := fun _ url =>
       if String.eqb url (appdetails_url 10 "english")
       then json_reply (details_of 10 (counter_strike extra))
       else if String.prefix "https://www.youtube.com/results" url
            then html_reply results_page
            else NetError;
     render := fun _ => EmptyString;
     int_text := fun _ => None |}.

Definition movies_a : list (string * pyval) :=
  [("movies", VList [VDict [("webm", VDict [("max", VStr "a.webm")])]])].

(** The first entry has no trailer, the second has one. *)
Definition movies_b : list (string * pyval) :=
  [("movies", VList [VDict []; VDict [("webm", VDict [("max", VStr "b.webm")])]])].

Definition categories : pyval :=
  VDict [("top_sellers", VDict [("items", VList [VDict [("id", VInt 10)]])])].

(** No network at all. *)
Definition offline : environment :=
  {| respond := fun _ _ => NetError;
     render := fun _ => EmptyString;
     int_text := fun _ => None |}.

(** The categories endpoint lists appid 10. *)
Definition one_seller : environment :=
  {| respond := fun _ url =>
       if String.eqb url featured_url then json_reply categories else NetError;
     render := fun _ => EmptyString;
     int_text := fun _ => None |}.

(** The details request for appid 10 is answered once; asked again it
    times out. *)
Definition flaky : environment :=
  {| respond := fun tr url =>
       if String.eqb url featured_url then json_reply categories
       else if String.eqb url (appdetails_url 10 "english")
            then if bool_decide (url ∈ tr) then NetError
                 else json_reply (details_of 10 (counter_strike movies_a))
            else NetError;
     render := fun _ => EmptyString;
     int_text := fun _ => None |}.

(** A form field is missing or holds nothing but whitespace. *)
Definition missing_or_blank (o : option string) : bool :=
  match o with
  | Some t => String.eqb (strip t) ""
  | None => true
  end.

(** The item the scenarios enrich appid 10 to, up to its trailer. *)
Definition counter_strike_game (trailer : pyval) : Game.t :=
  {| Game.appid := 10;
     Game.name := VStr "Counter-Strike";
     Game.short_description := VStr EmptyString;
     Game.header_image := VStr "cs.jpg";
     Game.genres := [];
     Game.price := VStr "—";
     Game.store_link := "https://store.steampowered.com/app/10";
     Game.trailer_url := trailer |}.

Definition counter_strike_search : string :=
  "https://www.youtube.com/results?search_query=Counter-Strike%20official%20trailer".

Definition counter_strike_embed : pyval :=
  VStr "https://www.youtube.com/embed/abc12345678".

(** ** Queries and the pages that show them *)

(** The order of [column.desc()]: the row with the larger key comes first. *)
Definition later_first {A : Type} (key : A -> Z) : relation A :=
  fun a b => key b <= key a.

#[global] Instance later_first_dec {A : Type} (key : A -> Z) :
  RelDecision (later_first key).
Proof. intros a b. unfold later_first. apply _. Defined.

#[global] Instance later_first_total {A : Type} (key : A -> Z) :
  Total (later_first key).
Proof. intros a b. unfold later_first. lia. Qed.

#[global] Instance later_first_trans {A : Type} (key : A -> Z) :
  Transitive (later_first key).
Proof. intros a b c. unfold later_first. lia. Qed.

(** [query.order_by(column.desc()).all()].  SQL leaves the order of rows
    with equal keys open; here it is the one the merge gives. *)
Definition order_by_desc {A : Type} (key : A -> Z) (rows : list A) : list A :=
  merge_sort (later_first key) rows.

(** [Favourite.to_dict] *)
Definition favourite_to_dict (r : Favourite.t) : pyval :=
  VDict [("appid", VInt (Favourite.appid r));
         ("name", VStr (Favourite.name r));
         ("image", of_form (Favourite.image r))].

(** [Review.to_dict]; [timestamp] is [int(created_at.timestamp())], which
    reads the stored time in the zone of the host. *)
Definition review_to_dict (timestamp : Z -> Z) (r : Review.t) : pyval :=
  VDict [("id", VInt (Review.id r));
         ("appid", VInt (Review.appid r));
         ("rating", VInt (Review.rating r));
         ("text", VStr (Review.text r));
         ("created_at", VInt (timestamp (Review.created_at r)))].

(** [Favourite.query.order_by(Favourite.added_at.desc()).all()] *)
Definition favourites_by_date (s : store) : list Favourite.t :=
  order_by_desc Favourite.added_at (favourites s).

(** [Review.query.filter_by(appid=k).order_by(Review.created_at.desc()).all()] *)
Definition reviews_by_date (k : Z) (s : store) : list Review.t :=
  order_by_desc Review.created_at (filter (fun r => Review.appid r = k) (reviews s)).

(** [get_all_favourites()] *)
Definition get_all_favourites : Db (list pyval) :=
  fun s => (Ok (favourite_to_dict <$> favourites_by_date s), s).

(** [get_reviews_for_app(appid)] *)
Definition get_reviews_for_app (E : environment) (timestamp : Z -> Z) (appid : pyval)
  : Db (list pyval) :=
  k <~ py_int E appid ;;
  u <- bind_integer k ;;
  fun s => (Ok (review_to_dict timestamp <$> reviews_by_date k s), s).

(** What a handler answers: a redirect, or a template with its context. *)
Inductive page : Type :=
| Redirect (r : redirect)
| GameDetail (game : Game.t) (reviews : list pyval)
| FavouritesList (favs : list pyval).

Definition details_unavailable : redirect :=
  {| flashed := [("Game details unavailable.", "warning")]; location := index_url |}.

(** [game_detail(appid)]: the handler talks to the network and reads the
    store. *)
Definition game_detail (E : environment) (timestamp : Z -> Z) (appid : Z)
    (tr : trace) (s : store) : result page * trace :=
  match get_steam_game E appid "english" tr with
  | (Ok (Some g), tr') =>
      match get_reviews_for_app E timestamp (VInt appid) s with
      | (Ok reviews, _) => (Ok (GameDetail g reviews), tr')
      | (Raise e, _) => (Raise e, tr')
      end
  | (Ok None, tr') => (Ok (Redirect details_unavailable), tr')
  | (Raise e, tr') => (Raise e, tr')
  end.

(** [favourites_page()] *)
Definition favourites_page : Db page :=
  favs <- get_all_favourites ;;
  ret (FavouritesList favs).

(** The appids of the entries of a feed that are there. *)
Definition present_appids (games : list (option Game.t)) : list Z :=
  omap (fun o : option Game.t => Game.appid <$> o) games.

(** [s] holds the marker [watch?v=] followed by [vid] after [pre]. *)
Definition marked_at (pre vid : string) (s : string) : Prop :=
  exists rest, s = pre +:+ "watch?v=" +:+ vid +:+ rest.

(** [vid] is eleven characters out of letters, digits, [_] and [-]. *)
Definition video_id (vid : string) : Prop :=
  String.length vid = 11%nat /\ forallb is_id_char (list_ascii_of_string vid) = true.

(** The characters [quote] lets through or produces. *)
Definition url_safe (c : ascii) : bool :=
  is_unreserved c || Ascii.eqb c "/" || Ascii.eqb c "%".

(** A network that always answers the same: the categories endpoint lists
    appid 10, the catalogue knows it, the video site has one result. *)
Definition shop : environment :=
  {| respond := fun _ url =>
       if String.eqb url featured_url then json_reply categories
       else if String.eqb url (appdetails_url 10 "english")
            then json_reply (details_of 10 (counter_strike []))
            else if String.prefix "https://www.youtube.com/results" url
                 then html_reply results_page
                 else NetError;
     render := fun _ => EmptyString;
     int_text := fun _ => None |}.

Definition added_notice (referrer : option string) : redirect :=
  {| flashed := [("Added to favourites.", "info")];
     location := referrer_or referrer favourites_url |}.

Definition already_notice (referrer : option string) : redirect :=
  {| flashed := [("Already in favourites.", "info")];
     location := referrer_or referrer favourites_url |}.

Definition missing_details_notice (referrer : option string) : redirect :=
  {| flashed := [("Missing game details.", "warning")];
     location := referrer_or referrer index_url |}.

(** * The built-ins on small inputs *)

Example int_of_string_examples (E : environment) :
  int_of_string E " 12 " = Some 12
  /\ int_of_string E "-1_0" = Some (-10)
  /\ int_of_string E "007" = Some 7
  /\ int_of_string E "abc" = None
  /\ int_of_string E "   " = None
  /\ int_of_string E "1__0" = None
  /\ int_of_string E "5_" = None.
Proof. by vm_compute. Qed.

Example strip_examples :
  strip "  a b  " = "a b"
  /\ strip "   " = EmptyString
  /\ strip (String (ascii_of_nat 194) (String (ascii_of_nat 160) "x ")) = "x"
  /\ strip (String (ascii_of_nat 226) (String (ascii_of_nat 128) (String (ascii_of_nat 131)
              EmptyString))) = EmptyString
  /\ strip (String "a" (String (ascii_of_nat 227) (String (ascii_of_nat 128)
              (String (ascii_of_nat 128) EmptyString)))) = "a"
  /\ strip (String (ascii_of_nat 195) (String (ascii_of_nat 160) EmptyString))
     = String (ascii_of_nat 195) (String (ascii_of_nat 160) EmptyString).
Proof. by vm_compute. Qed.

Example quote_examples :
  quote "Half-Life 2: Episode One official trailer"
  = "Half-Life%202%3A%20Episode%20One%20official%20trailer".
Proof. by vm_compute. Qed.

Example re_search_examples :
  re_search results_page = Some "abc12345678"
  /\ re_search "watch?v=short watch?v=AbC_-678901x" = Some "AbC_-678901"
  /\ re_search "watch?v=tooshort" = None.
Proof. by vm_compute. Qed.

Example dedup_loop_examples :
  dedup_loop 9 [10; 20; 10; 30] [] ∅ = [10; 20; 30]
  /\ dedup_loop 2 [10; 20; 10; 30] [] ∅ = [10; 20]
  /\ dedup_loop 0 [10; 20; 10; 30] [] ∅ = [10].
Proof. by vm_compute. Qed.

(** * Reasoning about computations *)

Lemma rbind_Ok {A B : Type} (m : result A) (k : A -> result B) (b : B) :
  rbind m k = Ok b -> exists a, m = Ok a /\ k a = Ok b.
Proof. destruct m as [a|e]; simpl; [eauto | discriminate]. Qed.

Lemma bind_Ok {S A B : Type} (m : M S A) (k : A -> M S B) (s s' : S) (b : B) :
  bind m k s = (Ok b, s') -> exists a s1, m s = (Ok a, s1) /\ k a s1 = (Ok b, s').
Proof.
  unfold bind. destruct (m s) as [[a|e] s1]; [eauto | discriminate].
Qed.

Lemma lift_Ok {S A : Type} (r : result A) (s s' : S) (a : A) :
  lift r s = (Ok a, s') -> r = Ok a /\ s' = s.
Proof. unfold lift. by intros [= -> ->]. Qed.

Lemma bind_lift_Ok {S A B : Type} (r : result A) (k : A -> M S B) (s s' : S) (b : B) :
  bind (lift r) k s = (Ok b, s') -> exists a, r = Ok a /\ k a s = (Ok b, s').
Proof.
  intros H. apply bind_Ok in H as (a & s1 & Hl & Hk).
  apply lift_Ok in Hl as [-> ->]. eauto.
Qed.

Lemma ret_Ok {S A : Type} (a b : A) (s s' : S) :
  ret a s = (Ok b, s') -> a = b /\ s' = s.
Proof. unfold ret. by intros [= -> ->]. Qed.

(** A handler that returns a constant swallows every exception. *)
Lemma try_except_const {S A : Type} (body : M S A) (a : A) (s : S) :
  exists b, fst (try_except body (fun _ => ret a) s) = Ok b.
Proof.
  unfold try_except. destruct (body s) as [[b|e] s1]; simpl; eauto.
Qed.

Lemma try_except_const_inv {S A : Type} (body : M S A) (a b : A) (s s' : S) :
  try_except body (fun _ => ret a) s = (Ok b, s') ->
  body s = (Ok b, s') \/ (b = a /\ exists e, body s = (Raise e, s')).
Proof.
  unfold try_except, ret. destruct (body s) as [[c|e] s1]; intros [= <- <-]; eauto.
Qed.

(** * The details fetch *)

Lemma requests_get_Ok E url tr r tr' :
  requests_get E url tr = (Ok r, tr') -> respond E tr url = Reply r /\ tr' = tr ++ [url].
Proof.
  unfold requests_get. destruct (respond E tr url); [discriminate|]. by intros [= -> <-].
Qed.

Lemma response_json_Ok r j : response_json r = Ok j -> json_body r = Some j.
Proof. unfold response_json. destruct (json_body r); [by intros [= ->] | discriminate]. Qed.

Lemma details_entry_Some key j entry :
  details_entry key j = Ok (Some entry) -> success_flag key j = true.
Proof.
  destruct j as [| | | | s | l | d]; simpl; try discriminate.
  - by destruct (is_substring key s).
  - by destruct (existsb (is_str key) l).
  - destruct (dict_lookup d key) as [e|]; [|discriminate].
    destruct e; simpl; try discriminate.
    destruct (truthy _); [done | discriminate].
Qed.

(** What a returned item tells about the response and the enrichment. *)
Lemma get_steam_game_Some E appid lang tr g tr' :
  get_steam_game E appid lang tr = (Ok (Some g), tr') ->
  successful_response E appid lang tr
  /\ exists d,
       details_data E appid lang tr = Some d
       /\ game_of_data E appid d (tr ++ [appdetails_url appid lang]) = (Ok g, tr').
Proof.
  intros H. apply try_except_const_inv in H as [H | [[=] _]].
  unfold get_steam_game_body in H.
  apply bind_Ok in H as (r & tr1 & Hget & H).
  apply requests_get_Ok in Hget as [Hr ->].
  apply bind_lift_Ok in H as (u & Hst & H).
  apply bind_lift_Ok in H as (j & Hj & H).
  apply bind_lift_Ok in H as (oe & Hoe & H).
  destruct oe as [entry|]; [|apply ret_Ok in H as [[=] _]].
  apply bind_lift_Ok in H as (d & Hd & H).
  apply bind_Ok in H as (g' & tr2 & Hg & H).
  apply ret_Ok in H as [[= ->] ->].
  split.
  - exists r, j. repeat split; try done.
    + by destruct u.
    + by apply response_json_Ok.
    + by apply details_entry_Some in Hoe.
  - exists d. split; [|done].
    unfold details_data. rewrite Hr, Hst. simpl. rewrite Hj. simpl. rewrite Hoe. simpl.
    by rewrite Hd.
Qed.

Lemma get_steam_game_fails E appid lang tr :
  fetch_failure E appid lang tr -> fst (get_steam_game E appid lang tr) = Ok None.
Proof.
  intros Hf.
  destruct (get_steam_game E appid lang tr) as [[[g|]|e] tr'] eqn:Hg; simpl.
  - apply get_steam_game_Some in Hg as [(r & j & Hr & Hst & Hj & Hflag) _].
    destruct Hf as [Hn | r' Hr' Hs | r' Hr' Hd | r' j' Hr' Hj' Hf]; congruence.
  - done.
  - destruct (try_except_const (get_steam_game_body E appid lang) None tr) as [b Hb].
    unfold get_steam_game in Hg. rewrite Hg in Hb. discriminate.
Qed.

(** C4: for every appid and language, [get_steam_game] never raises to its
    caller; it returns [None] whenever the request fails on the network or
    times out, the status is an HTTP error, the body does not decode as
    JSON, or the success flag is not set; and it returns an item only on a
    successful response. *)
Theorem get_steam_game_failure E appid lang tr :
  (exists o, fst (get_steam_game E appid lang tr) = Ok o)
  /\ (fetch_failure E appid lang tr -> fst (get_steam_game E appid lang tr) = Ok None)
  /\ (forall g, fst (get_steam_game E appid lang tr) = Ok (Some g) ->
                successful_response E appid lang tr).
Proof.
  split; [apply try_except_const|]. split; [apply get_steam_game_fails|].
  intros g Hg. destruct (get_steam_game E appid lang tr) as [o tr'] eqn:H.
  simpl in Hg. subst o. by apply get_steam_game_Some in H as [? _].
Qed.

Lemma get_steam_game_failure_witness :
  fetch_failure one_seller 10 "english" []
  /\ fst (get_steam_game one_seller 10 "english" []) = Ok None.
Proof.
  assert (Hf : fetch_failure one_seller 10 "english" [])
    by (apply network_failure; reflexivity).
  split; [exact Hf|].
  destruct (get_steam_game_failure one_seller 10 "english" []) as (_ & H & _).
  exact (H Hf).
Defined.

(** * The fallback resolver *)

Lemma take_id_spec n s vid :
  take_id n s = Some vid ->
  String.length vid = n /\ forallb is_id_char (list_ascii_of_string vid) = true.
Proof.
  revert s vid. induction n as [|n IH]; intros s vid; simpl.
  - by intros [= <-].
  - destruct s as [|c s]; [discriminate|].
    destruct (is_id_char c) eqn:Hc; [|discriminate].
    destruct (take_id n s) as [v|] eqn:Hv; [|discriminate].
    intros [= <-]. destruct (IH _ _ Hv) as [Hlen Hall]. simpl.
    rewrite Hc, Hall, Hlen. done.
Qed.

Lemma re_search_spec s vid :
  re_search s = Some vid ->
  String.length vid = 11%nat /\ forallb is_id_char (list_ascii_of_string vid) = true.
Proof.
  induction s as [|c s IH]; simpl.
  - discriminate.
  - destruct (match_here (String c s)) as [v|] eqn:Hm; [|exact IH].
    intros [= <-]. unfold match_here in Hm.
    destruct (strip_prefix _ _); [|discriminate]. by apply take_id_spec in Hm.
Qed.

Lemma youtube_search_url_quoted E game_name :
  youtube_search_url E game_name
  = "https://www.youtube.com/results?search_query=" +:+ quote (search_query E game_name).
Proof. reflexivity. Qed.

(** The resolver never raises.  When the query cannot be encoded it makes
    no request and yields [None]; otherwise it makes one request and yields
    an embeddable url when the page holds a match and [None] when not. *)
Lemma search_youtube_trailer_spec E game_name tr :
  exists v tr',
    search_youtube_trailer E game_name tr = (Ok v, tr')
    /\ if has_surrogate (search_query E game_name)
       then v = VNone /\ tr' = tr
       else tr' = tr ++ [youtube_search_url E game_name]
            /\ match respond E tr (youtube_search_url E game_name) with
               | NetError => v = VNone
               | Reply page =>
                   match re_search (text page) with
                   | Some vid => v = VStr (youtube_embed_url vid) /\ embed_url v
                   | None => v = VNone
                   end
               end.
Proof.
  rewrite youtube_search_url_quoted.
  unfold search_youtube_trailer, try_except, bind, lift, quote_checked, requests_get, ret.
  destruct (has_surrogate (search_query E game_name)); [by exists VNone, tr|].
  destruct (respond E tr _) as [|page]; [by eexists; eexists|].
  destruct (re_search (text page)) as [vid|] eqn:Hre; [|by eexists; eexists].
  eexists. eexists. split; [reflexivity|]. split; [done|]. split; [done|].
  exists vid. split; [done|]. exact (re_search_spec _ _ Hre).
Qed.

(** * Enrichment *)

Lemma game_of_data_trailer E appid d tr1 g tr' :
  game_of_data E appid d tr1 = (Ok g, tr') ->
  exists native,
    steam_trailer d = Ok native
    /\ Game.appid g = appid
    /\ py_get d "name" = Ok (Game.name g)
    /\ if truthy native
       then Game.trailer_url g = native /\ tr' = tr1
       else search_youtube_trailer E (Game.name g) tr1 = (Ok (Game.trailer_url g), tr').
Proof.
  intros H. unfold game_of_data in H.
  apply bind_lift_Ok in H as (hi & Hhi & H).
  apply bind_lift_Ok in H as (sd & Hsd & H).
  apply bind_lift_Ok in H as (gs & Hgs & H).
  apply bind_lift_Ok in H as (pr & Hpr & H).
  apply bind_lift_Ok in H as (native & Hnat & H).
  apply bind_Ok in H as (trailer & tr2 & Htr & H).
  apply bind_lift_Ok in H as (nm & Hnm & H).
  apply ret_Ok in H as [<- ->]. simpl.
  exists native. repeat split; try done.
  destruct (truthy native); simpl in Htr.
  - by apply ret_Ok in Htr as [-> ->].
  - apply bind_lift_Ok in Htr as (nm' & Hnm' & Htr). congruence.
Qed.

(** * The native trailer *)

Lemma max_or_480_field f key w v :
  py_get f key = Ok w ->
  max_or_480 (py_or w (VDict [])) = Ok v ->
  v = py_or (field2 f key "max") (field2 f key "480").
Proof.
  destruct f as [| | | | | |fm]; try discriminate.
  unfold py_get, py_get_default, field2. intros [= <-].
  destruct (dict_lookup fm key) as [w|]; simpl.
  - unfold py_or at 1. destruct (truthy w) eqn:Hw.
    + destruct w as [| | | | | |x]; try discriminate.
      unfold max_or_480, py_get, py_get_default, py_or. simpl.
      destruct (truthy (default VNone (dict_lookup x "max"))); by intros [= <-].
    + intros [= <-]. destruct w as [| | | | | |x]; try reflexivity.
      destruct x; [reflexivity | discriminate].
  - by intros [= <-].
Qed.

Lemma steam_trailer_first_movie d native :
  steam_trailer d = Ok native ->
  List.find truthy (first_movie_candidates d)
  = if truthy native then Some native else None.
Proof.
  unfold steam_trailer. intros H.
  apply rbind_Ok in H as (mv & Hmv & H).
  destruct d as [| | | | | |m]; try discriminate.
  unfold py_get, py_get_default in Hmv. injection Hmv as <-.
  unfold first_movie_candidates, movie_media.
  destruct (dict_lookup m "movies") as [mv|]; simpl in *; [|by injection H as <-].
  destruct (truthy (py_or mv (VList []))) eqn:Hmovies.
  - apply rbind_Ok in H as (first & Hfirst & H).
    apply rbind_Ok in H as (w & Hw & H).
    apply rbind_Ok in H as (v1 & Hv1 & H).
    assert (Hm : mv = VList (first :: match mv with VList (_ :: t) => t | _ => [] end)).
    { unfold py_or in Hmovies, Hfirst.
      destruct mv as [| [] | z | f | s | l | dd]; simpl in *; try discriminate.
      - destruct (z =? 0); discriminate.
      - destruct f as [| |? mm ?]; simpl in *; try discriminate.
        destruct (mm =? 0)%N; discriminate.
      - destruct s as [|c s]; simpl in *; [discriminate|].
        injection Hfirst as <-. discriminate.
      - destruct l as [|x l]; simpl in *; [discriminate|]. by injection Hfirst as ->.
      - destruct dd; discriminate. }
    rewrite Hm. unfold trailer_candidates.
    pose proof (max_or_480_field _ _ _ _ Hw Hv1) as E1. simpl.
    destruct (truthy v1) eqn:Hv1t; simpl in H.
    + injection H as <-. rewrite Hv1t. subst v1. unfold py_or in *.
      destruct (truthy (field2 first "webm" "max")) eqn:Ha; [done|]. by rewrite Hv1t.
    + apply rbind_Ok in H as (w2 & Hw2 & H).
      pose proof (max_or_480_field _ _ _ _ Hw2 H) as E2. subst v1 native.
      unfold py_or in *.
      destruct (truthy (field2 first "webm" "max")) eqn:Ha; [congruence|]. rewrite Hv1t.
      destruct (truthy (field2 first "mp4" "max")) eqn:Hc; [by rewrite Hc|].
      by destruct (truthy (field2 first "mp4" "480")) eqn:Hd.
  - injection H as <-. simpl. unfold py_or in Hmovies.
    destruct mv as [| | | | |l|]; try done.
    destruct l; [done | discriminate].
Qed.

(** C2, amended: for every successful details response the native trailer is
    the first url found in the first entry of the item's movie media, in
    the order of preference webm-max, webm-480, mp4-max, mp4-480, and there
    is none when that entry holds no such url or the media are empty; a
    native trailer that is found is the item's [trailer_url] and the
    resolver is not invoked. *)
Theorem native_trailer_first_movie E appid lang tr g tr' :
  get_steam_game E appid lang tr = (Ok (Some g), tr') ->
  exists d native,
    details_data E appid lang tr = Some d
    /\ steam_trailer d = Ok native
    /\ List.find truthy (first_movie_candidates d)
       = (if truthy native then Some native else None)
    /\ (truthy native = true ->
        Game.trailer_url g = native /\ tr' = tr ++ [appdetails_url appid lang]).
Proof.
  intros H. apply get_steam_game_Some in H as (_ & d & Hd & Hg).
  apply game_of_data_trailer in Hg as (native & Hnat & _ & _ & Hg).
  exists d, native. repeat split; try done.
  - by apply steam_trailer_first_movie.
  - destruct (truthy native); [tauto | done].
  - destruct (truthy native); [tauto | done].
Qed.

(** The scenario [movies = [{webm: {max: "a.webm"}}]]: the trailer is
    [a.webm] and the details request is the only one. *)
Lemma native_trailer_first_movie_witness :
  get_steam_game (scenario movies_a) 10 "english" []
  = (Ok (Some (counter_strike_game (VStr "a.webm"))), [appdetails_url 10 "english"])
  /\ exists d native,
       details_data (scenario movies_a) 10 "english" [] = Some d
       /\ steam_trailer d = Ok native
       /\ List.find truthy (first_movie_candidates d)
          = (if truthy native then Some native else None)
       /\ (truthy native = true ->
           Game.trailer_url (counter_strike_game (VStr "a.webm")) = native
           /\ [appdetails_url 10 "english"] = [] ++ [appdetails_url 10 "english"]).
Proof.
  assert (Hrun : get_steam_game (scenario movies_a) 10 "english" []
                 = (Ok (Some (counter_strike_game (VStr "a.webm"))),
                    [appdetails_url 10 "english"]))
    by (vm_compute; reflexivity).
  split; [exact Hrun|].
  exact (native_trailer_first_movie _ _ _ _ _ _ Hrun).
Defined.

(** C2 as stated fails: a trailer url in a later entry of the movie media is
    not found; the item gets the resolver's url instead. *)
Lemma native_trailer_later_movie :
  native_trailer_spec (counter_strike movies_b) = VStr "b.webm"
  /\ steam_trailer (counter_strike movies_b) = Ok VNone
  /\ trailer_of (get_steam_game (scenario movies_b) 10 "english" [])
     = (Some counter_strike_embed, [appdetails_url 10 "english"; counter_strike_search]).
Proof. by vm_compute. Qed.

(** * The fallback chain *)

(** C1, amended: whenever the details fetch succeeds, that is
    [get_steam_game] returns an item, the item's [trailer_url] is filled by
    the fallback chain.  If the first entry of the movie media holds a
    native trailer, the first in the order of preference is the trailer
    and the only request made is the details request: the resolver is not
    invoked.  Otherwise the trailer is what [search_youtube_trailer]
    returns for the item's name: [None] without a request when the query
    cannot be encoded, and after one request an embeddable url
    [https://www.youtube.com/embed/<id>] with an id of eleven characters
    when the results page holds a match, [None] when it holds none or the
    request fails. *)
Theorem trailer_fallback_chain E appid lang tr g tr' :
  get_steam_game E appid lang tr = (Ok (Some g), tr') ->
  exists d,
    details_data E appid lang tr = Some d
    /\ py_get d "name" = Ok (Game.name g)
    /\ let tr1 := tr ++ [appdetails_url appid lang] in
       let query := youtube_search_url E (Game.name g) in
       match List.find truthy (first_movie_candidates d) with
       | Some native => Game.trailer_url g = native /\ tr' = tr1
       | None =>
           search_youtube_trailer E (Game.name g) tr1 = (Ok (Game.trailer_url g), tr')
           /\ if has_surrogate (search_query E (Game.name g))
              then Game.trailer_url g = VNone /\ tr' = tr1
              else tr' = tr1 ++ [query]
                   /\ match respond E tr1 query with
                      | NetError => Game.trailer_url g = VNone
                      | Reply page =>
                          match re_search (text page) with
                          | Some vid => Game.trailer_url g = VStr (youtube_embed_url vid)
                                        /\ embed_url (Game.trailer_url g)
                          | None => Game.trailer_url g = VNone
                          end
                      end
       end.
Proof.
  intros H. apply get_steam_game_Some in H as (_ & d & Hd & Hg).
  apply game_of_data_trailer in Hg as (native & Hnat & _ & Hnm & Hg).
  exists d. split; [done|]. split; [done|]. simpl.
  rewrite (steam_trailer_first_movie d native Hnat).
  destruct (truthy native); [done|]. split; [done|].
  destruct (search_youtube_trailer_spec E (Game.name g) (tr ++ [appdetails_url appid lang]))
    as (v & tr2 & Hv & Hres).
  rewrite Hv in Hg. injection Hg as <- <-. done.
Qed.

(** Both branches: a native trailer in the first entry, and none. *)
Lemma trailer_fallback_chain_witness :
  (get_steam_game (scenario movies_a) 10 "english" []
   = (Ok (Some (counter_strike_game (VStr "a.webm"))), [appdetails_url 10 "english"])
   /\ List.find truthy (first_movie_candidates (counter_strike movies_a))
      = Some (VStr "a.webm"))
  /\ (get_steam_game (scenario []) 10 "english" []
      = (Ok (Some (counter_strike_game counter_strike_embed)),
         [appdetails_url 10 "english"; counter_strike_search])
      /\ List.find truthy (first_movie_candidates (counter_strike [])) = None
      /\ embed_url counter_strike_embed).
Proof.
  assert (Ha : get_steam_game (scenario movies_a) 10 "english" []
               = (Ok (Some (counter_strike_game (VStr "a.webm"))),
                  [appdetails_url 10 "english"]))
    by (vm_compute; reflexivity).
  assert (Hb : get_steam_game (scenario []) 10 "english" []
               = (Ok (Some (counter_strike_game counter_strike_embed)),
                  [appdetails_url 10 "english"; counter_strike_search]))
    by (vm_compute; reflexivity).
  split.
  - split; [exact Ha|].
    destruct (trailer_fallback_chain _ _ _ _ _ _ Ha) as (d & Hd & _ & H).
    vm_compute in Hd. injection Hd as <-.
    vm_compute in H. destruct H as [_ _]. reflexivity.
  - split; [exact Hb|]. split; [reflexivity|].
    destruct (trailer_fallback_chain _ _ _ _ _ _ Hb) as (d & Hd & _ & H).
    vm_compute in Hd. injection Hd as <-.
    vm_compute in H. destruct H as (_ & _ & _ & H). exact H.
Defined.

(** C1 as stated fails: the movie media hold a native trailer, in their
    second entry, and the resolver is invoked all the same. *)
Lemma resolver_invoked_despite_native_trailer :
  details_data (scenario movies_b) 10 "english" [] = Some (counter_strike movies_b)
  /\ truthy (native_trailer_spec (counter_strike movies_b)) = true
  /\ snd (get_steam_game (scenario movies_b) 10 "english" [])
     = [appdetails_url 10 "english"; counter_strike_search].
Proof. by vm_compute. Qed.

(** * Top sellers *)

Lemma first_seen_elem (l : list Z) : forall (seen : gset Z) x,
  x ∈ first_seen seen l <-> x ∈ l /\ x ∉ seen.
Proof.
  induction l as [|a l IH]; intros seen x; simpl.
  - split; [intros H; inversion H | intros [H _]; inversion H].
  - case_bool_decide as Ha.
    + rewrite IH, elem_of_cons. split; [tauto|]. intros [[->|Hx] Hn]; [done | tauto].
    + rewrite !elem_of_cons, IH. split.
      * intros [->|[Hx Hn]]; [tauto|]. split; [tauto | set_solver].
      * intros [[->|Hx] Hn]; [tauto|].
        destruct (decide (x = a)) as [->|Hne]; [tauto|]. right. split; [done | set_solver].
Qed.

Lemma first_seen_NoDup (l : list Z) : forall seen : gset Z, NoDup (first_seen seen l).
Proof.
  induction l as [|a l IH]; intros seen; simpl; [apply NoDup_nil_2|].
  case_bool_decide; [apply IH|].
  apply NoDup_cons. split; [|apply IH].
  rewrite first_seen_elem. set_solver.
Qed.

Lemma first_seen_sublist (l : list Z) : forall seen : gset Z, first_seen seen l `sublist_of` l.
Proof.
  induction l as [|a l IH]; intros seen; simpl; [done|].
  case_bool_decide; [apply sublist_cons, IH | apply sublist_skip, IH].
Qed.

(** While the output is shorter than the limit, the loop extends it with
    the first-seen sellers up to the limit. *)
Lemma dedup_loop_take (limit : Z) (sellers : list Z) : forall (out : list Z) (seen : gset Z),
  Z.of_nat (length out) < limit ->
  dedup_loop limit sellers out seen
  = out ++ take (Z.to_nat limit - length out) (first_seen seen sellers).
Proof.
  induction sellers as [|a rest IH]; intros out seen Hlen; simpl.
  - by rewrite take_nil, app_nil_r.
  - case_bool_decide as Ha.
    + destruct (Z.leb_spec limit (Z.of_nat (length out))); [lia|]. by apply IH.
    + rewrite length_app. simpl.
      destruct (Z.leb_spec limit (Z.of_nat (length out + 1))) as [Hle|Hgt].
      * replace (Z.to_nat limit - length out)%nat with 1%nat by lia.
        simpl. by rewrite take_0.
      * rewrite IH by (rewrite length_app; simpl; lia).
        rewrite length_app. simpl. rewrite <- app_assoc. simpl.
        replace (Z.to_nat limit - length out)%nat
          with (S (Z.to_nat limit - (length out + 1)))%nat by lia.
        done.
Qed.

Lemma dedup_loop_positive (limit : Z) (sellers : list Z) :
  1 <= limit ->
  dedup_loop limit sellers [] ∅ = take (Z.to_nat limit) (first_seen ∅ sellers).
Proof.
  intros H. rewrite dedup_loop_take by (simpl; lia). simpl. f_equal. lia.
Qed.

(** With a limit of zero or less the loop stops after its first turn, one
    seller already in the output. *)
Lemma dedup_loop_nonpositive (limit : Z) (sellers : list Z) :
  limit <= 0 -> dedup_loop limit sellers [] ∅ = take 1 sellers.
Proof.
  intros H. destruct sellers as [|a rest]; [done|]. simpl.
  rewrite bool_decide_eq_false_2 by set_solver. simpl.
  destruct (Z.leb_spec limit (Z.of_nat 1)); [reflexivity | lia].
Qed.

(** [fetch_top_sellers] makes one request and never raises: it returns the
    de-duplicated sellers, or the empty list when anything failed. *)
Lemma fetch_top_sellers_run E limit tr :
  fetch_top_sellers E limit tr
  = (Ok match respond E tr featured_url with
        | NetError => []
        | Reply r =>
            match u <-? raise_for_status r ;; j <-? response_json r ;; listed_sellers E j with
            | Ok sellers => dedup_loop limit sellers [] ∅
            | Raise _ => []
            end
        end,
     tr ++ [featured_url]).
Proof.
  unfold fetch_top_sellers, try_except, bind, requests_get, lift, ret, listed_sellers.
  destruct (respond E tr featured_url) as [|r]; [done|].
  destruct (raise_for_status r); simpl; [|done].
  destruct (response_json r); simpl; [|done].
  destruct (py_items _); simpl; [|done].
  by destruct (collect_sellers _ _ _).
Qed.

(** For a limit of at least one: at most [limit] sellers, no duplicates, in
    first-seen order. *)
Lemma fetch_top_sellers_spec E limit tr :
  1 <= limit ->
  exists ids,
    fetch_top_sellers E limit tr = (Ok ids, tr ++ [featured_url])
    /\ (Z.of_nat (length ids) <= limit)
    /\ NoDup ids
    /\ match respond E tr featured_url with
       | NetError => ids = []
       | Reply r =>
           match u <-? raise_for_status r ;; j <-? response_json r ;; listed_sellers E j with
           | Ok sellers => ids = take (Z.to_nat limit) (first_seen ∅ sellers)
           | Raise _ => ids = []
           end
       end.
Proof.
  intros Hl. rewrite fetch_top_sellers_run. eexists. split; [reflexivity|].
  destruct (respond E tr featured_url) as [|r].
  { repeat split; [simpl; lia | apply NoDup_nil_2]. }
  destruct (u <-? raise_for_status r ;; j <-? response_json r ;; listed_sellers E j)
    as [sellers|e].
  - rewrite dedup_loop_positive by done. repeat split.
    + rewrite length_take. lia.
    + eapply sublist_NoDup; [apply first_seen_NoDup | apply sublist_take].
  - repeat split; [simpl; lia | apply NoDup_nil_2].
Qed.

(** C5 at a limit of zero: the categories endpoint lists one seller and
    [fetch_top_sellers(0)] returns it, a sequence longer than the limit.
    The loop tests the length only after it has appended. *)
Theorem fetch_top_sellers_limit_zero :
  fetch_top_sellers one_seller 0 [] = (Ok [10], [featured_url]).
Proof. by vm_compute. Qed.

(** * The home page over a stable network *)

Section Stable.
Variable E : environment.
Hypothesis E_stable : stable E.

Lemma history_free_ret {A : Type} (a : A) : history_free (ret a).
Proof. done. Qed.

Lemma history_free_lift {A : Type} (r : result A) : history_free (lift r).
Proof. done. Qed.

Lemma history_free_get url : history_free (requests_get E url).
Proof.
  intros tr tr'. unfold requests_get. rewrite (E_stable tr tr' url).
  by destruct (respond E tr' url).
Qed.

Lemma history_free_bind {A B : Type} (m : Net A) (k : A -> Net B) :
  history_free m -> (forall a, history_free (k a)) -> history_free (bind m k).
Proof.
  intros Hm Hk tr tr'. unfold bind. specialize (Hm tr tr').
  destruct (m tr) as [[a|e] t1], (m tr') as [[a'|e'] t1']; simpl in *; try congruence.
  injection Hm as ->. apply Hk.
Qed.

Lemma history_free_try {A : Type} (m : Net A) (h : exn -> Net A) :
  history_free m -> (forall e, history_free (h e)) -> history_free (try_except m h).
Proof.
  intros Hm Hh tr tr'. unfold try_except. specialize (Hm tr tr').
  destruct (m tr) as [[a|e] t1], (m tr') as [[a'|e'] t1']; simpl in *; try congruence.
  injection Hm as ->. apply Hh.
Qed.

Lemma history_free_search game_name : history_free (search_youtube_trailer E game_name).
Proof.
  apply history_free_try; [|intros; apply history_free_ret].
  apply history_free_bind; [apply history_free_lift | intros quoted].
  apply history_free_bind; [apply history_free_get|].
  intros r. destruct (re_search (text r)); apply history_free_ret.
Qed.

Lemma history_free_game_of_data appid d : history_free (game_of_data E appid d).
Proof.
  unfold game_of_data.
  repeat (apply history_free_bind; [apply history_free_lift | intros ?]).
  apply history_free_bind.
  - destruct (negb _); [|apply history_free_ret].
    apply history_free_bind; [apply history_free_lift | intros ?].
    apply history_free_search.
  - intros ?. apply history_free_bind; [apply history_free_lift | intros ?].
    apply history_free_ret.
Qed.

Lemma history_free_get_steam_game appid lang : history_free (get_steam_game E appid lang).
Proof.
  apply history_free_try; [|intros; apply history_free_ret].
  unfold get_steam_game_body.
  apply history_free_bind; [apply history_free_get | intros r].
  apply history_free_bind; [apply history_free_lift | intros u].
  apply history_free_bind; [apply history_free_lift | intros j].
  apply history_free_bind; [apply history_free_lift | intros oe].
  destruct oe as [entry|]; [|apply history_free_ret].
  apply history_free_bind; [apply history_free_lift | intros ?].
  apply history_free_bind; [apply history_free_game_of_data | intros ?].
  apply history_free_ret.
Qed.

Lemma get_steam_game_again appid tr :
  exists o tr',
    get_steam_game E appid "english" tr = (Ok o, tr')
    /\ (Game.appid <$> o) = (if enriches E appid then Some appid else None).
Proof.
  pose proof (history_free_get_steam_game appid "english" tr []) as Hfree.
  unfold enriches. rewrite <- Hfree.
  destruct (get_steam_game E appid "english" tr) as [[[g|]|e] tr'] eqn:Hg; simpl.
  - exists (Some g), tr'. split; [done|]. simpl. f_equal.
    apply get_steam_game_Some in Hg as (_ & d & _ & Hd).
    by apply game_of_data_trailer in Hd as (_ & _ & Ha & _).
  - by exists None, tr'.
  - destruct (try_except_const (get_steam_game_body E appid "english") None tr) as [b Hb].
    unfold get_steam_game in Hg. rewrite Hg in Hb. discriminate.
Qed.

(** Over a stable network the feed is the top sellers whose enrichment
    succeeds, in their order, every entry filled. *)
Lemma index_games_stable (top_ids : list Z) : forall tr,
  exists games tr',
    index_games E top_ids tr = (Ok games, tr')
    /\ feed_appids games = Some <$> filter (fun aid => enriches E aid = true) top_ids.
Proof.
  induction top_ids as [|aid rest IH]; intros tr; simpl.
  - by exists [], tr.
  - unfold bind.
    destruct (get_steam_game_again aid tr) as (c & tr1 & -> & Hc).
    destruct (enriches E aid) eqn:Hen.
    + destruct c as [g|]; [|discriminate].
      destruct (get_steam_game_again aid tr1) as (c2 & tr2 & -> & Hc2).
      rewrite Hen in Hc2. destruct c2 as [g2|]; [|discriminate].
      destruct (IH tr2) as (games & tr' & -> & Hgames).
      exists (Some g2 :: games), tr'. split; [done|].
      rewrite filter_cons_True by done. unfold feed_appids in *.
      rewrite !fmap_cons. by rewrite Hc2, Hgames.
    + destruct c as [g|]; [discriminate|].
      destruct (IH tr1) as (games & tr' & -> & Hgames).
      exists games, tr'. split; [done|].
      by rewrite filter_cons_False by congruence.
Qed.

Lemma index_stable tr :
  exists games tr',
    index E tr = (Ok games, tr')
    /\ (length games <= 9)%nat
    /\ NoDup (feed_appids games)
    /\ Forall is_Some games
    /\ exists top_ids,
         fetch_top_sellers E 9 tr = (Ok top_ids, tr ++ [featured_url])
         /\ feed_appids games
            = Some <$> filter (fun aid => enriches E aid = true) top_ids.
Proof.
  unfold index, bind.
  destruct (fetch_top_sellers_spec E 9 tr) as (ids & -> & Hlen & Hnd & _); [lia|].
  destruct (index_games_stable ids (tr ++ [featured_url]))
    as (games & tr' & -> & Hgames).
  exists games, tr'. split; [done|].
  assert (Hl : length games = length (filter (fun aid => enriches E aid = true) ids)).
  { rewrite <- (length_fmap (fun o : option Game.t => Game.appid <$> o) games).
    fold (feed_appids games). by rewrite Hgames, length_fmap. }
  repeat split.
  - rewrite Hl. pose proof (length_filter (fun aid => enriches E aid = true) ids). lia.
  - rewrite Hgames. apply (NoDup_fmap_2 _). by apply NoDup_filter.
  - apply Forall_forall. intros o Ho.
    assert (Hin : (Game.appid <$> o) ∈ feed_appids games)
      by (unfold feed_appids; by apply list_elem_of_fmap_2).
    rewrite Hgames in Hin. apply list_elem_of_fmap in Hin as (a & Ha & _).
    destruct o; [by eexists | discriminate].
  - by exists ids.
Qed.

End Stable.

(** C9 over a network that answers the details request once and then times
    out: [index] keeps appid 10 because the first call returned an item, and
    puts the [None] of the second call into the feed. *)
Theorem index_repeated_fetch :
  index flaky []
  = (Ok [None],
     [featured_url; appdetails_url 10 "english"; appdetails_url 10 "english"]).
Proof. by vm_compute. Qed.

(** * Properties of the store *)

Lemma find_appid_None (k : Z) (l : list Favourite.t) :
  List.find (fun r => Favourite.appid r =? k) l = None <-> k ∉ Favourite.appid <$> l.
Proof.
  induction l as [|r l IH]; simpl.
  - split; [intros _ H; inversion H | reflexivity].
  - destruct (Z.eqb_spec (Favourite.appid r) k) as [Heq|Hne].
    + split; [discriminate | intros H; exfalso; apply H; subst; left].
    + rewrite IH. rewrite not_elem_of_cons. naive_solver.
Qed.

Lemma find_appid_Some (k : Z) (l : list Favourite.t) (row : Favourite.t) :
  List.find (fun r => Favourite.appid r =? k) l = Some row ->
  exists l1 l2, l = l1 ++ row :: l2 /\ Favourite.appid row = k
                /\ k ∉ Favourite.appid <$> l1.
Proof.
  induction l as [|r l IH]; simpl; [done|].
  destruct (Z.eqb_spec (Favourite.appid r) k) as [Heq|Hne].
  - intros [= ->]. exists [], l. repeat split; [done|]. simpl. apply not_elem_of_nil.
  - intros H. destruct (IH H) as (l1 & l2 & -> & Hk & Hl1).
    exists (r :: l1), l2. repeat split; [done|].
    rewrite fmap_cons, not_elem_of_cons. done.
Qed.

Lemma find_appid_is_Some (k : Z) (l : list Favourite.t) :
  k ∈ Favourite.appid <$> l ->
  exists row, List.find (fun r => Favourite.appid r =? k) l = Some row.
Proof.
  intros Hin. destruct (List.find _ l) as [row|] eqn:E; [eauto|].
  apply find_appid_None in E. done.
Qed.

Lemma filter_keeps_all {A : Type} (P : A -> Prop) `{!forall x, Decision (P x)} (l : list A) :
  Forall P l -> filter P l = l.
Proof.
  induction 1 as [|x l Hx Hl IH]; [done|].
  rewrite filter_cons_True by done. by rewrite IH.
Qed.

(** Deleting a row by primary key takes exactly that row out. *)
Lemma delete_by_id (l1 l2 : list Favourite.t) (row : Favourite.t) :
  NoDup (Favourite.id <$> l1 ++ row :: l2) ->
  filter (fun r => Favourite.id r <> Favourite.id row) (l1 ++ row :: l2) = l1 ++ l2.
Proof.
  intros Hnd. rewrite fmap_app, fmap_cons in Hnd.
  apply NoDup_app in Hnd as (_ & Hl1 & Hnd).
  apply NoDup_cons in Hnd as (Hl2 & _).
  rewrite filter_app, filter_cons_False by (intros H; by apply H).
  f_equal; apply filter_keeps_all, Forall_forall; intros r Hr Heq.
  - apply (Hl1 (Favourite.id r)); [by apply list_elem_of_fmap_2|]. rewrite Heq. left.
  - apply Hl2. rewrite <- Heq. by apply list_elem_of_fmap_2.
Qed.

Lemma first_favourite_run k s :
  first_favourite k s
  = if fits_int64 k
    then (Ok (List.find (fun r => Favourite.appid r =? k) (favourites s)), s)
    else (Raise OverflowError, s).
Proof.
  unfold first_favourite, bind, bind_integer, ret, raise, lift. by destruct (fits_int64 k).
Qed.

Lemma insert_favourite_run now k name image s :
  insert_favourite now k name image s
  = if fits_int64 k
    then if encodable name && encodable image
         then match name with
              | Some n =>
                  (Ok tt, {| favourites := favourites s ++ [new_favourite now k n image s];
                             reviews := reviews s |})
              | None => (Raise IntegrityError, s)
              end
         else (Raise UnicodeEncodeError, s)
    else (Raise OverflowError, s).
Proof.
  unfold insert_favourite, bind, bind_integer, bind_text, ret, raise, lift.
  destruct (fits_int64 k); [|done].
  destruct (encodable name); [|done]. destruct (encodable image); [|done].
  by destruct name.
Qed.

Lemma insert_review_run now k rating txt s :
  insert_review now k rating txt s
  = if fits_int64 k && fits_int64 rating
    then if encodable (Some txt)
         then (Ok tt, {| favourites := favourites s;
                         reviews := reviews s ++ [new_review now k rating txt s] |})
         else (Raise UnicodeEncodeError, s)
    else (Raise OverflowError, s).
Proof.
  unfold insert_review, bind, bind_integer, bind_text, ret, raise, lift.
  destruct (fits_int64 k), (fits_int64 rating); try done.
  by destruct (encodable (Some txt)).
Qed.

(** The three operations, run. *)
Lemma add_favourite_db_run E now appid name image s :
  add_favourite_db E now appid name image s
  = match py_int E appid with
    | Raise e => (Raise e, s)
    | Ok k =>
        if fits_int64 k then
          match List.find (fun r => Favourite.appid r =? k) (favourites s) with
          | Some _ => (Ok false, s)
          | None =>
              if encodable name && encodable image then
                match name with
                | Some n =>
                    (Ok true,
                     {| favourites := favourites s ++ [new_favourite now k n image s];
                        reviews := reviews s |})
                | None => (Raise IntegrityError, s)
                end
              else (Raise UnicodeEncodeError, s)
          end
        else (Raise OverflowError, s)
    end.
Proof.
  unfold add_favourite_db, bind, lift, ret.
  destruct (py_int E appid) as [k|e]; [|done].
  rewrite first_favourite_run. destruct (fits_int64 k) eqn:Hfit; [|done].
  destruct (List.find _ (favourites s)); [done|].
  rewrite insert_favourite_run, Hfit.
  destruct (encodable name && encodable image); [|done]. by destruct name.
Qed.

Lemma remove_favourite_db_run E appid s :
  remove_favourite_db E appid s
  = match py_int E appid with
    | Raise e => (Raise e, s)
    | Ok k =>
        if fits_int64 k then
          match List.find (fun r => Favourite.appid r =? k) (favourites s) with
          | Some row =>
              (Ok true,
               {| favourites := filter (fun r => Favourite.id r <> Favourite.id row)
                                       (favourites s);
                  reviews := reviews s |})
          | None => (Ok false, s)
          end
        else (Raise OverflowError, s)
    end.
Proof.
  unfold remove_favourite_db, bind, lift, ret, delete_favourite.
  destruct (py_int E appid) as [k|e]; [|done].
  rewrite first_favourite_run. destruct (fits_int64 k); [|done].
  by destruct (List.find _ (favourites s)).
Qed.

Lemma add_review_db_run E now appid rating txt s :
  add_review_db E now appid rating txt s
  = match py_int E appid with
    | Raise e => (Raise e, s)
    | Ok k =>
        match py_int E rating with
        | Raise e => (Raise e, s)
        | Ok r =>
            match txt with
            | None => (Raise AttributeError, s)
            | Some t =>
                if fits_int64 k && fits_int64 r
                then if encodable (Some (strip t))
                     then (Ok true,
                           {| favourites := favourites s;
                              reviews := reviews s ++ [new_review now k r (strip t) s] |})
                     else (Raise UnicodeEncodeError, s)
                else (Raise OverflowError, s)
            end
        end
    end.
Proof.
  unfold add_review_db, bind, lift, ret.
  destruct (py_int E appid) as [k|e]; [|done].
  destruct (py_int E rating) as [r|e]; [|done].
  destruct txt as [t|]; [|done]. simpl.
  rewrite insert_review_run. destruct (fits_int64 k && fits_int64 r); [|done].
  unfold encodable. by destruct (has_surrogate (strip t)).
Qed.

Lemma add_favourite_db_present E now appid k name image s :
  py_int E appid = Ok k -> fits_int64 k = true -> k ∈ favourite_appids s ->
  add_favourite_db E now appid name image s = (Ok false, s).
Proof.
  intros Hk Hfit Hin. destruct (find_appid_is_Some k (favourites s) Hin) as [row Hrow].
  by rewrite add_favourite_db_run, Hk, Hfit, Hrow.
Qed.

Lemma add_favourite_db_absent E now appid k n image s :
  py_int E appid = Ok k -> fits_int64 k = true ->
  encodable (Some n) = true -> encodable image = true ->
  k ∉ favourite_appids s ->
  add_favourite_db E now appid (Some n) image s
  = (Ok true, {| favourites := favourites s ++ [new_favourite now k n image s];
                 reviews := reviews s |}).
Proof.
  intros Hk Hfit Hn Hi Hnin. apply find_appid_None in Hnin.
  by rewrite add_favourite_db_run, Hk, Hfit, Hnin, Hn, Hi.
Qed.

Lemma rows_of_absent k s : k ∉ favourite_appids s -> rows_of k s = [].
Proof.
  unfold rows_of, favourite_appids. induction (favourites s) as [|r l IH]; [done|].
  rewrite fmap_cons, not_elem_of_cons. intros [Hne Hl].
  rewrite filter_cons_False by done. auto.
Qed.




Lemma remove_favourite_db_absent E appid k s :
  py_int E appid = Ok k -> fits_int64 k = true -> k ∉ favourite_appids s ->
  remove_favourite_db E appid s = (Ok false, s).
Proof.
  intros Hk Hfit Hnin. apply find_appid_None in Hnin.
  by rewrite remove_favourite_db_run, Hk, Hfit, Hnin.
Qed.




(** ** Uniqueness of the appid across the favourites table *)

Lemma add_favourite_db_unique E now appid name image s :
  unique_appid s -> unique_appid (snd (add_favourite_db E now appid name image s)).
Proof.
  intros Hu. rewrite add_favourite_db_run.
  destruct (py_int E appid) as [k|e]; [|done].
  destruct (fits_int64 k); [|done].
  destruct (List.find _ (favourites s)) as [row|] eqn:Hfind; [done|].
  destruct (encodable name && encodable image); [|done].
  destruct name as [n|]; [|done]. simpl.
  apply find_appid_None in Hfind.
  unfold unique_appid, favourite_appids in *; simpl.
  rewrite fmap_app. apply NoDup_app. split; [done|]. split.
  - intros x Hx Hx'. apply list_elem_of_singleton in Hx'. by subst.
  - apply NoDup_singleton.
Qed.

Lemma remove_favourite_db_unique E appid s :
  unique_appid s -> unique_appid (snd (remove_favourite_db E appid s)).
Proof.
  intros Hu. rewrite remove_favourite_db_run.
  destruct (py_int E appid) as [k|e]; [|done].
  destruct (fits_int64 k); [|done].
  destruct (List.find _ (favourites s)) as [row|]; [|done]. simpl.
  unfold unique_appid, favourite_appids in *; simpl.
  eapply sublist_NoDup; [exact Hu|]. apply fmap_sublist, sublist_filter.
Qed.

Lemma add_review_db_favourites E now appid rating txt s :
  favourites (snd (add_review_db E now appid rating txt s)) = favourites s.
Proof.
  rewrite add_review_db_run.
  destruct (py_int E appid) as [k|]; [|done]. destruct (py_int E rating) as [r|]; [|done].
  destruct txt as [t|]; [|done]. destruct (fits_int64 k && fits_int64 r); [|done].
  by destruct (encodable (Some (strip t))).
Qed.

Lemma run_op_unique E op s : unique_appid s -> unique_appid (run_op E s op).
Proof.
  destruct op as [now appid name image|appid|now appid rating txt]; simpl.
  - apply add_favourite_db_unique.
  - apply remove_favourite_db_unique.
  - unfold unique_appid, favourite_appids. by rewrite add_review_db_favourites.
Qed.

(** C6: from a favourites table in which every appid is in at most one row,
    any sequence of store operations (adding a favourite, removing one,
    adding a review, whether they return or raise) leads to a table with
    the same property. *)
Theorem favourite_appid_unique E ops s :
  unique_appid s -> unique_appid (run_ops E ops s).
Proof.
  unfold run_ops. revert s.
  induction ops as [|op ops IH]; intros s Hu; simpl; [done|].
  apply IH. by apply run_op_unique.
Qed.

Lemma favourite_appid_unique_witness :
  unique_appid
    (run_ops offline
       [AddFavourite 0 (VStr "10") (Some "CS") None;
        AddFavourite 1 (VStr "10") (Some "CS") None;
        AddReview 2 (VInt 10) (VStr "5") (Some "fine");
        AddFavourite 3 (VStr "20") (Some "TF") None;
        RemoveFavourite (VStr "10");
        RemoveFavourite (VStr "abc")] store0).
Proof.
  apply favourite_appid_unique. apply NoDup_nil_2.
Defined.

(** The primary key stays a key as well. *)
Lemma foldr_max_ge (rest : list Z) : forall i x,
  x ∈ i :: rest -> x <= foldr Z.max i rest.
Proof.
  induction rest as [|y rest IH]; intros i x Hx; simpl.
  - apply list_elem_of_singleton in Hx. lia.
  - apply elem_of_cons in Hx as [-> | Hx].
    + specialize (IH i i ltac:(left)). lia.
    + apply elem_of_cons in Hx as [-> | Hx]; [lia|].
      specialize (IH i x ltac:(by right)). lia.
Qed.

Lemma next_id_fresh (ids : list Z) : forall x, x ∈ ids -> x < next_id ids.
Proof.
  unfold next_id. destruct ids as [|i rest]; intros x Hx; [inversion Hx|].
  apply foldr_max_ge in Hx. lia.
Qed.

Lemma run_op_unique_id E op s : unique_id s -> unique_id (run_op E s op).
Proof.
  intros Hu. destruct op as [now appid name image|appid|now appid rating txt]; simpl.
  - rewrite add_favourite_db_run.
    destruct (py_int E appid) as [k|e]; [|done].
    destruct (fits_int64 k); [|done].
    destruct (List.find _ (favourites s)) as [row|]; [done|].
    destruct (encodable name && encodable image); [|done].
    destruct name as [n|]; [|done]. simpl.
    unfold unique_id in *; simpl. rewrite fmap_app. apply NoDup_app.
    split; [done|]. split; [|apply NoDup_singleton].
    intros x Hx Hx'. apply list_elem_of_singleton in Hx'. subst x. simpl in Hx.
    apply next_id_fresh in Hx. lia.
  - rewrite remove_favourite_db_run.
    destruct (py_int E appid) as [k|e]; [|done].
    destruct (fits_int64 k); [|done].
    destruct (List.find _ (favourites s)) as [row|]; [|done]. simpl.
    unfold unique_id in *; simpl.
    eapply sublist_NoDup; [exact Hu|]. apply fmap_sublist, sublist_filter.
  - unfold unique_id. by rewrite add_review_db_favourites.
Qed.

Lemma run_ops_unique_id E ops s : unique_id s -> unique_id (run_ops E ops s).
Proof.
  unfold run_ops. revert s.
  induction ops as [|op ops IH]; intros s Hu; simpl; [done|].
  apply IH. by apply run_op_unique_id.
Qed.

(** ** The unguarded integer parse *)

Lemma add_favourite_db_total E now appid n image s :
  encodable (Some n) = true -> encodable image = true ->
  (exists b s', add_favourite_db E now appid (Some n) image s = (Ok b, s'))
  <-> (exists k, py_int E appid = Ok k /\ fits_int64 k = true).
Proof.
  intros Hn Hi.
  rewrite add_favourite_db_run, Hn, Hi. destruct (py_int E appid) as [k|e].
  - destruct (fits_int64 k) eqn:Hfit.
    + split; [by exists k|]. intros _.
      destruct (List.find (fun r => Favourite.appid r =? k) (favourites s));
        do 2 eexists; reflexivity.
    + split; [intros (b & s' & [=]) | intros (k' & [= <-] & Hf); congruence].
  - split; [intros (b & s' & [=]) | intros (k & [=] & _)].
Qed.

Lemma remove_favourite_db_total E appid s :
  (exists b s', remove_favourite_db E appid s = (Ok b, s'))
  <-> (exists k, py_int E appid = Ok k /\ fits_int64 k = true).
Proof.
  rewrite remove_favourite_db_run. destruct (py_int E appid) as [k|e].
  - destruct (fits_int64 k) eqn:Hfit.
    + split; [by exists k|]. intros _.
      destruct (List.find (fun r => Favourite.appid r =? k) (favourites s));
        do 2 eexists; reflexivity.
    + split; [intros (b & s' & [=]) | intros (k' & [= <-] & Hf); congruence].
  - split; [intros (b & s' & [=]) | intros (k & [=] & _)].
Qed.

(** C10: [add_favourite_db] and [remove_favourite_db] convert the appid with
    an unguarded [int]: for the appid [abc] they raise [ValueError], and so
    do the routes, whose validation only rejects a missing or empty field.
    The operations return a boolean only when the appid converts to an
    integer: exactly when it converts to one that fits the integer column,
    a signed integer of 64 bits (for the addition, with a name and an image
    that are text with an encoding). *)
Theorem favourites_int_parse_unguarded :
  (forall E now name image s,
     add_favourite_db E now (VStr "abc") name image s = (Raise ValueError, s))
  /\ (forall E s, remove_favourite_db E (VStr "abc") s = (Raise ValueError, s))
  /\ (forall E now referrer s,
        favourites_add E now [("appid", "abc"); ("name", "CS")] referrer s
        = (Raise ValueError, s))
  /\ (forall E s, favourites_remove E [("appid", "abc")] s = (Raise ValueError, s))
  /\ (forall E now appid n image s b s',
        add_favourite_db E now appid (Some n) image s = (Ok b, s') ->
        exists k, py_int E appid = Ok k)
  /\ (forall E appid s b s',
        remove_favourite_db E appid s = (Ok b, s') -> exists k, py_int E appid = Ok k)
  /\ (forall E now appid n image s,
        encodable (Some n) = true -> encodable image = true ->
        (exists b s', add_favourite_db E now appid (Some n) image s = (Ok b, s'))
        <-> (exists k, py_int E appid = Ok k /\ fits_int64 k = true))
  /\ (forall E appid s,
        (exists b s', remove_favourite_db E appid s = (Ok b, s'))
        <-> (exists k, py_int E appid = Ok k /\ fits_int64 k = true)).
Proof.
  split; [reflexivity|]. split; [reflexivity|]. split; [reflexivity|].
  split; [reflexivity|]. split; [|split; [|split]].
  - intros E now appid n image s b s' H. rewrite add_favourite_db_run in H.
    destruct (py_int E appid) as [k|e]; [by exists k | discriminate].
  - intros E appid s b s' H.
    destruct (proj1 (remove_favourite_db_total E appid s)) as (k & Hk & _); eauto.
  - apply add_favourite_db_total.
  - apply remove_favourite_db_total.
Qed.

(** * The review form *)

Lemma add_review_route_run E now appid f s :
  add_review_route E now appid f s
  = if blank (form_get f "rating") then (Ok (review_warning appid), s)
    else
      match form_get f "text" with
      | None => (Raise AttributeError, s)
      | Some t =>
          if String.eqb (strip t) "" then (Ok (review_warning appid), s)
          else
            match py_int E (of_form (form_get f "rating")) with
            | Raise e => (Raise e, s)
            | Ok k =>
                if fits_int64 appid && fits_int64 k
                then if encodable (Some (strip t))
                     then (Ok (review_submitted appid),
                           {| favourites := favourites s;
                              reviews := reviews s
                                         ++ [new_review now appid k (strip t) s] |})
                     else (Raise UnicodeEncodeError, s)
                else (Raise OverflowError, s)
            end
      end.
Proof.
  unfold add_review_route, bind, lift, ret.
  destruct (blank (form_get f "rating")); [done|].
  destruct (form_get f "text") as [t|]; [|done]. simpl.
  destruct (String.eqb (strip t) ""); [done|].
  rewrite add_review_db_run. simpl.
  destruct (py_int E (of_form (form_get f "rating"))) as [k|e]; [|done].
  destruct (fits_int64 appid && fits_int64 k); [|done].
  by destruct (has_surrogate (strip t)).
Qed.

(** C3, amended: when the rating field is missing or empty, or the text
    field is present and blank, the handler flashes the warning, redirects
    to the detail view and inserts nothing.  When the rating is not empty
    and the text is present and not blank (a form field is decoded text, so
    text with an encoding): if the rating converts to an integer and that
    integer and the appid fit the integer columns (signed, 64 bits), it
    inserts one review with the text trimmed and redirects to the detail
    view; if the rating does not convert it raises [ValueError], and if a
    value does not fit it raises [OverflowError], in both cases with
    nothing inserted. *)
Theorem add_review_route_spec E now appid f s :
  (blank (form_get f "rating") = true ->
   add_review_route E now appid f s = (Ok (review_warning appid), s))
  /\ (forall t,
        form_get f "text" = Some t -> strip t = "" ->
        add_review_route E now appid f s = (Ok (review_warning appid), s))
  /\ (forall r t,
        form_get f "rating" = Some r -> r <> "" ->
        form_get f "text" = Some t -> strip t <> "" ->
        encodable (Some (strip t)) = true ->
        match int_of_string E r with
        | Some k =>
            if fits_int64 appid && fits_int64 k
            then add_review_route E now appid f s
                 = (Ok (review_submitted appid),
                    {| favourites := favourites s;
                       reviews := reviews s ++ [new_review now appid k (strip t) s] |})
            else add_review_route E now appid f s = (Raise OverflowError, s)
        | None => add_review_route E now appid f s = (Raise ValueError, s)
        end).
Proof.
  rewrite add_review_route_run. split; [|split].
  - by intros ->.
  - intros t -> Ht. destruct (blank _); [done|]. by rewrite Ht.
  - intros r t -> Hr -> Ht Henc. unfold blank; simpl.
    destruct (String.eqb_spec r ""); [done|]. simpl.
    destruct (String.eqb_spec (strip t) ""); [done|].
    destruct (int_of_string E r) as [k|]; [|done].
    simpl in Henc. rewrite Henc.
    by destruct (fits_int64 appid && fits_int64 k).
Qed.

Lemma add_review_route_spec_witness :
  add_review_route offline 7 10 [("rating", "5"); ("text", " good ")] store0
  = (Ok (review_submitted 10),
     {| favourites := []; reviews := [new_review 7 10 5 "good" store0] |})
  /\ add_review_route offline 7 10 [("text", " good ")] store0
     = (Ok (review_warning 10), store0)
  /\ add_review_route offline 7 10 [("rating", "5"); ("text", "   ")] store0
     = (Ok (review_warning 10), store0).
Proof.
  split; [|split].
  - destruct (add_review_route_spec offline 7 10 [("rating", "5"); ("text", " good ")] store0)
      as (_ & _ & H).
    apply (H "5" " good "); [reflexivity | discriminate | reflexivity | | reflexivity].
    vm_compute. discriminate.
  - destruct (add_review_route_spec offline 7 10 [("text", " good ")] store0) as (H & _ & _).
    apply H. reflexivity.
  - destruct (add_review_route_spec offline 7 10 [("rating", "5"); ("text", "   ")] store0)
      as (_ & H & _).
    apply (H "   "); reflexivity.
Defined.

(** With a rating given and the text field absent the handler raises. *)
Lemma add_review_route_missing_text E now appid f s :
  blank (form_get f "rating") = false -> form_get f "text" = None ->
  add_review_route E now appid f s = (Raise AttributeError, s).
Proof.
  intros Hr Ht. by rewrite add_review_route_run, Hr, Ht.
Qed.

(** C3 as stated fails: both fields are present and not blank, yet no
    review is inserted and no redirect is returned. *)
Lemma add_review_route_not_numeric :
  missing_or_blank (form_get [("rating", "abc"); ("text", "great")] "rating") = false
  /\ missing_or_blank (form_get [("rating", "abc"); ("text", "great")] "text") = false
  /\ add_review_route offline 0 10 [("rating", "abc"); ("text", "great")] store0
     = (Raise ValueError, store0).
Proof. by vm_compute. Qed.

(** * More on the fallback resolver *)

Lemma append_assoc_cons (c : ascii) (a b : string) :
  String c a +:+ b = String c (a +:+ b).
Proof. reflexivity. Qed.

Lemma strip_prefix_Some p : forall s rest,
  strip_prefix p s = Some rest <-> s = p +:+ rest.
Proof.
  induction p as [|a p IH]; intros s rest; simpl.
  - split; [by intros [= ->] | by intros ->].
  - destruct s as [|b s]; [split; discriminate|].
    destruct (Ascii.eqb_spec a b) as [->|Hne].
    + rewrite IH. split; [by intros -> | by intros [= ->]].
    + split; [discriminate | intros [= -> _]; done].
Qed.

Lemma take_id_prefix n : forall s vid,
  take_id n s = Some vid -> exists rest, s = vid +:+ rest.
Proof.
  induction n as [|n IH]; intros s vid; simpl.
  - intros [= <-]. by exists s.
  - destruct s as [|c s]; [discriminate|].
    destruct (is_id_char c); [|discriminate].
    destruct (take_id n s) as [v|] eqn:Hv; [|discriminate].
    intros [= <-]. destruct (IH _ _ Hv) as [rest ->]. by exists rest.
Qed.

Lemma take_id_complete vid : forall rest,
  forallb is_id_char (list_ascii_of_string vid) = true ->
  take_id (String.length vid) (vid +:+ rest) = Some vid.
Proof.
  induction vid as [|c vid IH]; intros rest; simpl; [done|].
  intros [Hc Hall]%andb_prop. by rewrite Hc, IH.
Qed.

Lemma match_here_Some s vid :
  match_here s = Some vid <-> video_id vid /\ marked_at EmptyString vid s.
Proof.
  unfold match_here, marked_at, video_id. split.
  - destruct (strip_prefix _ s) as [rest0|] eqn:Hp; [|discriminate].
    intros Ht. apply strip_prefix_Some in Hp.
    destruct (take_id_prefix _ _ _ Ht) as [rest ->].
    split; [by apply take_id_spec in Ht | by exists rest].
  - intros [[Hlen Hall] [rest ->]].
    assert (Hp : strip_prefix "watch?v=" (EmptyString +:+ "watch?v=" +:+ vid +:+ rest)
                 = Some (vid +:+ rest)) by (by apply strip_prefix_Some).
    rewrite Hp, <- Hlen. by apply take_id_complete.
Qed.

Lemma marked_at_cons c pre vid s :
  marked_at (String c pre) vid (String c s) <-> marked_at pre vid s.
Proof.
  unfold marked_at. split; intros [rest H]; exists rest.
  - by injection H.
  - by rewrite H.
Qed.

Lemma marked_at_head c pre vid s :
  marked_at pre vid (String c s) ->
  pre = EmptyString \/ exists pre', pre = String c pre' /\ marked_at pre' vid s.
Proof.
  intros [rest H]. destruct pre as [|c' pre']; [by left|]. right.
  injection H as -> H. exists pre'. split; [done|]. by exists rest.
Qed.

(** [re.search] with this pattern returns the id that stands after the
    leftmost marker followed by eleven id characters, and returns nothing
    only when the text holds no such place. *)
Theorem re_search_leftmost s :
  (forall vid, re_search s = Some vid ->
     video_id vid
     /\ exists pre,
          marked_at pre vid s
          /\ forall pre' vid', marked_at pre' vid' s -> video_id vid' ->
               (String.length pre <= String.length pre')%nat)
  /\ (re_search s = None ->
      forall pre vid, marked_at pre vid s -> ~ video_id vid).
Proof.
  induction s as [|c s [IHsome IHnone]].
  - split.
    + simpl. discriminate.
    + intros _ pre vid [rest H] _. destruct pre; discriminate.
  - split.
    + intros vid. simpl. destruct (match_here (String c s)) as [v|] eqn:Hm.
      * intros [= <-]. apply match_here_Some in Hm as [Hv Hm].
        split; [done|]. exists EmptyString. split; [done|]. intros; simpl; lia.
      * intros Hre. destruct (IHsome _ Hre) as (Hv & pre & Hpre & Hleft).
        split; [done|]. exists (String c pre). split; [by apply marked_at_cons|].
        intros pre' vid' Hm' Hv'.
        destruct (marked_at_head _ _ _ _ Hm') as [-> | (p & -> & Hp)].
        -- assert (match_here (String c s) = Some vid') by (by apply match_here_Some).
           congruence.
        -- simpl. specialize (Hleft _ _ Hp Hv'). lia.
    + simpl. destruct (match_here (String c s)) as [v|] eqn:Hm; [discriminate|].
      intros Hre pre vid Hm' Hv.
      destruct (marked_at_head _ _ _ _ Hm') as [-> | (p & -> & Hp)].
      * assert (match_here (String c s) = Some vid) by (by apply match_here_Some).
        congruence.
      * by apply (IHnone Hre p vid).
Qed.

(** * Url quoting *)

Lemma quote_char_safe c : forallb url_safe (list_ascii_of_string (quote_char c)) = true.
Proof. destruct c as [[] [] [] [] [] [] [] []]; reflexivity. Qed.

Lemma list_ascii_of_string_app a b :
  list_ascii_of_string (a +:+ b) = list_ascii_of_string a ++ list_ascii_of_string b.
Proof. induction a as [|c a IH]; simpl; [done | by rewrite IH]. Qed.

Lemma quote_safe s : forallb url_safe (list_ascii_of_string (quote s)) = true.
Proof.
  induction s as [|c s IH]; simpl; [done|].
  rewrite list_ascii_of_string_app, forallb_app, quote_char_safe. exact IH.
Qed.

(** * What an enrichment requests and returns *)

(** Every character of the search url after its fixed head is url-safe. *)
Lemma youtube_search_url_safe E game_name :
  exists q,
    youtube_search_url E game_name = "https://www.youtube.com/results?search_query=" +:+ q
    /\ forallb url_safe (list_ascii_of_string q) = true.
Proof.
  unfold youtube_search_url. eexists. split; [reflexivity|]. apply quote_safe.
Qed.

(** The resolver on its own never raises and returns an embeddable url or
    [None].  When the query holds a lone surrogate, which the url quoting
    cannot encode, it returns [None] and makes no request.  Otherwise it
    makes exactly one request, to a url whose query part is url-safe, and
    returns an embeddable url exactly when the answer holds a marked video
    id, whatever the status of the answer. *)
Theorem search_youtube_trailer_total E game_name tr :
  exists v tr',
    search_youtube_trailer E game_name tr = (Ok v, tr')
    /\ (embed_url v \/ v = VNone)
    /\ if has_surrogate (search_query E game_name)
       then v = VNone /\ tr' = tr
       else exists q,
              tr' = tr ++ ["https://www.youtube.com/results?search_query=" +:+ q]
              /\ forallb url_safe (list_ascii_of_string q) = true
              /\ (v <> VNone <->
                  exists reply vid,
                    respond E tr (youtube_search_url E game_name) = Reply reply
                    /\ re_search (text reply) = Some vid).
Proof.
  destruct (youtube_search_url_safe E game_name) as (q & Hq & Hsafe).
  destruct (search_youtube_trailer_spec E game_name tr) as (v & tr' & Hrun & Hv).
  exists v, tr'. split; [done|].
  destruct (has_surrogate (search_query E game_name)).
  { destruct Hv as [-> ->]. split; [by right | done]. }
  destruct Hv as [-> Hv].
  destruct (respond E tr (youtube_search_url E game_name)) as [|reply].
  { subst v. split; [by right|]. exists q. split; [by rewrite Hq|]. split; [done|].
    split; [done | intros (? & ? & [=] & _)]. }
  destruct (re_search (text reply)) as [vid|] eqn:Hre.
  - destruct Hv as [Hv Hembed]. split; [by left|]. exists q.
    split; [by rewrite Hq|]. split; [done|].
    split; [intros _; by exists reply, vid | by rewrite Hv].
  - subst v. split; [by right|]. exists q. split; [by rewrite Hq|]. split; [done|].
    split; [done|]. intros (reply' & vid & [= <-] & Hre'). congruence.
Qed.

Lemma game_of_data_run E appid d tr :
  (exists g tr',
     game_of_data E appid d tr = (Ok g, tr')
     /\ (tr' = tr \/ exists nm, tr' = tr ++ [youtube_search_url E nm]))
  \/ (exists e, game_of_data E appid d tr = (Raise e, tr)).
Proof.
  unfold game_of_data, bind, lift.
  destruct (py_get d "header_image") as [hi|]; [|eauto].
  destruct (py_get d "short_description") as [sd|]; [|eauto].
  destruct (genres_of d) as [gs|]; [|eauto].
  destruct (price_of d) as [pr|]; [|eauto].
  destruct (steam_trailer d) as [native|]; [|eauto].
  destruct (py_get d "name") as [nm|] eqn:Hnm.
  - left. destruct (truthy native); simpl.
    + unfold ret. eauto 10.
    + destruct (search_youtube_trailer_spec E nm tr) as (v & tr' & -> & Hv).
      unfold ret. do 2 eexists. split; [reflexivity|].
      destruct (has_surrogate (search_query E nm)).
      * left. by destruct Hv.
      * right. exists nm. by destruct Hv.
  - right. destruct (truthy native); simpl; unfold ret; eauto.
Qed.

(** An enrichment makes the details request and at most one resolver
    request after it; when it returns [None] or fails on the way, the
    details request is the only one it made. *)
Theorem get_steam_game_requests E appid lang tr :
  exists o tr',
    get_steam_game E appid lang tr = (Ok o, tr')
    /\ (tr' = tr ++ [appdetails_url appid lang]
        \/ exists nm, tr' = tr ++ [appdetails_url appid lang; youtube_search_url E nm])
    /\ (o = None -> tr' = tr ++ [appdetails_url appid lang]).
Proof.
  unfold get_steam_game, try_except, get_steam_game_body, bind, lift, requests_get, ret.
  destruct (respond E tr _) as [|r]; [by eauto 10|].
  destruct (raise_for_status r); [|by eauto 10].
  destruct (response_json r) as [j|]; [|by eauto 10].
  destruct (details_entry _ j) as [[entry|]|]; [|by eauto 10..].
  destruct (py_getitem entry "data") as [d|]; [|by eauto 10].
  destruct (game_of_data_run E appid d (tr ++ [appdetails_url appid lang]))
    as [(g & tr' & -> & Htr) | (e & ->)]; [|by eauto 10].
  exists (Some g), tr'. split; [done|]. split; [|done].
  destruct Htr as [-> | (nm & ->)]; [by left|]. right. exists nm. by rewrite <- app_assoc.
Qed.

Lemma price_of_truthy d p : price_of d = Ok p -> truthy p = true.
Proof.
  unfold price_of. intros H.
  apply rbind_Ok in H as (po & _ & H). apply rbind_Ok in H as (ff & _ & H).
  destruct (truthy ff) eqn:Hff; [by injection H as <-|].
  apply rbind_Ok in H as (fr & _ & H). injection H as <-. by destruct (truthy fr).
Qed.

(** A returned item carries the appid it was asked for and the store link
    of that appid; its price is never empty or [None] (the formatted
    price, else [Free] or a dash); its short description is never [None]. *)
Theorem get_steam_game_fields E appid lang tr g tr' :
  get_steam_game E appid lang tr = (Ok (Some g), tr') ->
  Game.appid g = appid
  /\ Game.store_link g = store_url appid
  /\ truthy (Game.price g) = true
  /\ Game.short_description g <> VNone
  /\ exists d,
       details_data E appid lang tr = Some d
       /\ price_of d = Ok (Game.price g)
       /\ genres_of d = Ok (Game.genres g)
       /\ py_get d "header_image" = Ok (Game.header_image g).
Proof.
  intros H. apply get_steam_game_Some in H as (_ & d & Hd & H).
  unfold game_of_data in H.
  apply bind_lift_Ok in H as (hi & Hhi & H).
  apply bind_lift_Ok in H as (sd & Hsd & H).
  apply bind_lift_Ok in H as (gs & Hgs & H).
  apply bind_lift_Ok in H as (pr & Hpr & H).
  apply bind_lift_Ok in H as (native & Hnat & H).
  apply bind_Ok in H as (trailer & tr2 & Htr & H).
  apply bind_lift_Ok in H as (nm & Hnm & H).
  apply ret_Ok in H as [<- ->]. simpl.
  repeat split; try done.
  - by apply price_of_truthy in Hpr.
  - unfold py_or. destruct (truthy sd) eqn:Hs; [|done]. by intros ->.
  - by exists d.
Qed.

Lemma get_steam_game_fields_witness :
  Game.appid (counter_strike_game (VStr "a.webm")) = 10
  /\ truthy (Game.price (counter_strike_game (VStr "a.webm"))) = true.
Proof.
  assert (Hrun : get_steam_game (scenario movies_a) 10 "english" []
                 = (Ok (Some (counter_strike_game (VStr "a.webm"))),
                    [appdetails_url 10 "english"]))
    by (vm_compute; reflexivity).
  destruct (get_steam_game_fields _ _ _ _ _ _ Hrun) as (Ha & _ & Hp & _).
  split; [exact Ha | exact Hp].
Defined.

(** * More on the top sellers *)

Lemma first_seen_all (l : list Z) : forall (seen : gset Z),
  (length (first_seen seen l) <= length l)%nat.
Proof.
  induction l as [|a l IH]; intros seen; simpl; [lia|].
  case_bool_decide; simpl; [specialize (IH seen) | specialize (IH ({[a]} ∪ seen))]; lia.
Qed.

(** With a limit of at least one and a categories object that lists
    [sellers]: the result is the first [limit] sellers in first-seen order,
    without duplicates, every one of them listed; and when the limit is not
    smaller than the number of listed sellers, every listed seller is in
    the result. *)
Theorem fetch_top_sellers_first_seen E limit tr r j sellers :
  1 <= limit ->
  respond E tr featured_url = Reply r ->
  raise_for_status r = Ok tt ->
  json_body r = Some j ->
  listed_sellers E j = Ok sellers ->
  exists ids,
    fetch_top_sellers E limit tr = (Ok ids, tr ++ [featured_url])
    /\ ids = take (Z.to_nat limit) (first_seen ∅ sellers)
    /\ NoDup ids
    /\ Z.of_nat (length ids) <= limit
    /\ ids `sublist_of` sellers
    /\ (Z.of_nat (length sellers) <= limit -> forall x, x ∈ sellers -> x ∈ ids).
Proof.
  intros Hl Hr Hst Hj Hs. rewrite fetch_top_sellers_run, Hr, Hst. simpl.
  unfold response_json. rewrite Hj. simpl. rewrite Hs.
  rewrite dedup_loop_positive by done.
  eexists. split; [reflexivity|]. split; [reflexivity|]. repeat split.
  - eapply sublist_NoDup; [apply first_seen_NoDup | apply sublist_take].
  - rewrite length_take. lia.
  - etransitivity; [apply sublist_take | apply first_seen_sublist].
  - intros Hlen x Hx. rewrite take_ge.
    + apply first_seen_elem. split; [done | set_solver].
    + pose proof (first_seen_all sellers ∅). lia.
Qed.

Lemma fetch_top_sellers_first_seen_witness :
  fetch_top_sellers one_seller 9 [] = (Ok [10], [featured_url]).
Proof.
  destruct (fetch_top_sellers_first_seen one_seller 9 []
              {| status_code := 200; text := EmptyString; json_body := Some categories |}
              categories [10])
    as (ids & Hrun & -> & _); [lia | reflexivity..|].
  exact Hrun.
Defined.

Lemma collect_item_not_dict E item sellers :
  (forall d, item <> VDict d) -> collect_item E item sellers = Raise AttributeError.
Proof. intros H. destruct item; try reflexivity. by destruct (H d). Qed.

Lemma collect_items_malformed E items : forall sellers item,
  item ∈ items -> (forall d, item <> VDict d) ->
  exists e, collect_items E items sellers = Raise e.
Proof.
  induction items as [|x items IH]; intros sellers item Hin Hnd; [inversion Hin|].
  simpl. apply elem_of_cons in Hin as [<- | Hin].
  - rewrite collect_item_not_dict by done. by eexists.
  - destruct (collect_item E x sellers) as [sellers'|e]; simpl; [by eapply IH | by eexists].
Qed.

Lemma collect_sellers_malformed E entries : forall sellers key d its item,
  (key, VDict d) ∈ entries -> dict_lookup d "items" = Some (VList its) ->
  item ∈ its -> (forall d', item <> VDict d') ->
  exists e, collect_sellers E entries sellers = Raise e.
Proof.
  induction entries as [|[k v] entries IH]; intros sellers key d its item Hin Hits Hitem Hnd;
    [inversion Hin|].
  simpl. apply elem_of_cons in Hin as [[= <- <-] | Hin].
  - unfold collect_value. simpl. rewrite Hits.
    destruct (collect_items_malformed E its sellers item Hitem Hnd) as [e ->]. by eexists.
  - destruct (collect_value E v sellers) as [sellers'|e]; simpl; [by eapply IH | by eexists].
Qed.

(** [fetch_top_sellers] never raises and makes exactly one request.  It
    returns the empty list when the request fails, the status is an HTTP
    error, the body is not JSON or not an object; and one entry of an
    [items] list that is not an object voids the whole result, sellers
    already collected included. *)
Theorem fetch_top_sellers_all_or_nothing E limit tr :
  (exists ids, fetch_top_sellers E limit tr = (Ok ids, tr ++ [featured_url]))
  /\ (respond E tr featured_url = NetError ->
      fetch_top_sellers E limit tr = (Ok [], tr ++ [featured_url]))
  /\ (forall r,
        respond E tr featured_url = Reply r ->
        raise_for_status r = Raise HTTPError \/ json_body r = None
        \/ (exists j, json_body r = Some j /\ forall d, j <> VDict d) ->
        fetch_top_sellers E limit tr = (Ok [], tr ++ [featured_url]))
  /\ (forall r entries key d its item,
        respond E tr featured_url = Reply r ->
        json_body r = Some (VDict entries) ->
        (key, VDict d) ∈ entries -> dict_lookup d "items" = Some (VList its) ->
        item ∈ its -> (forall d', item <> VDict d') ->
        fetch_top_sellers E limit tr = (Ok [], tr ++ [featured_url])).
Proof.
  rewrite fetch_top_sellers_run. split; [by eexists|]. split; [by intros ->|]. split.
  - intros r -> [Hst | [Hj | (j & Hj & Hnd)]].
    + by rewrite Hst.
    + destruct (raise_for_status r); simpl; [|done].
      unfold response_json. by rewrite Hj.
    + destruct (raise_for_status r); simpl; [|done].
      unfold response_json. rewrite Hj. simpl.
      destruct j; try done. by destruct (Hnd d).
  - intros r entries key d its item -> Hj Hin Hits Hitem Hnd.
    destruct (raise_for_status r); simpl; [|done].
    unfold response_json. rewrite Hj. simpl. unfold listed_sellers. simpl.
    by destruct (collect_sellers_malformed E entries [] key d its item Hin Hits Hitem Hnd)
      as [e ->].
Qed.

Lemma fetch_top_sellers_all_or_nothing_witness :
  fetch_top_sellers (scenario []) 9 [] = (Ok [], [featured_url]).
Proof.
  destruct (fetch_top_sellers_all_or_nothing (scenario []) 9 []) as (_ & H & _).
  apply H. reflexivity.
Defined.

(** * The home page over any network *)

Lemma get_steam_game_returns E appid lang tr :
  exists o tr',
    get_steam_game E appid lang tr = (Ok o, tr')
    /\ forall g, o = Some g -> Game.appid g = appid.
Proof.
  destruct (get_steam_game E appid lang tr) as [[o|e] tr'] eqn:Hg.
  - exists o, tr'. split; [done|]. intros g ->.
    apply get_steam_game_Some in Hg as (_ & d & _ & Hd).
    by apply game_of_data_trailer in Hd as (_ & _ & Ha & _).
  - destruct (try_except_const (get_steam_game_body E appid lang) None tr) as [b Hb].
    unfold get_steam_game in Hg. rewrite Hg in Hb. discriminate.
Qed.

Lemma index_games_any E (top_ids : list Z) : forall tr,
  exists games tr',
    index_games E top_ids tr = (Ok games, tr')
    /\ (length games <= length top_ids)%nat
    /\ present_appids games `sublist_of` top_ids.
Proof.
  induction top_ids as [|aid rest IH]; intros tr; simpl.
  - exists [], tr. split; [done|]. split; [simpl; lia | done].
  - unfold bind.
    destruct (get_steam_game_returns E aid "english" tr) as (c & tr1 & -> & _).
    destruct c as [g0|].
    + destruct (get_steam_game_returns E aid "english" tr1) as (c2 & tr2 & -> & Hc2).
      destruct (IH tr2) as (games & tr' & -> & Hlen & Hsub).
      exists (c2 :: games), tr'. split; [done|]. split; [simpl; lia|].
      unfold present_appids in *. simpl. destruct c2 as [g|]; simpl.
      * rewrite (Hc2 g eq_refl). by apply sublist_skip.
      * by apply sublist_cons.
    + destruct (IH tr1) as (games & tr' & -> & Hlen & Hsub).
      exists games, tr'. split; [done|]. split; [lia|]. by apply sublist_cons.
Qed.

(** Whatever the network does, [index] does not raise; the feed has at
    most nine entries, and the items in it are top sellers in top-seller
    order, no appid twice. *)
Theorem index_any_network E tr :
  exists games tr' top_ids,
    index E tr = (Ok games, tr')
    /\ fetch_top_sellers E 9 tr = (Ok top_ids, tr ++ [featured_url])
    /\ (length games <= 9)%nat
    /\ present_appids games `sublist_of` top_ids
    /\ NoDup (present_appids games).
Proof.
  unfold index, bind.
  destruct (fetch_top_sellers_spec E 9 tr) as (ids & Hrun & Hlen & Hnd & _); [lia|].
  rewrite Hrun.
  destruct (index_games_any E ids (tr ++ [featured_url])) as (games & tr' & -> & Hl & Hsub).
  exists games, tr', ids. split; [done|]. split; [done|].
  split; [lia|]. split; [done|]. by eapply sublist_NoDup.
Qed.

(** * Listing reviews and favourites *)

Lemma order_by_desc_perm {A : Type} (key : A -> Z) (rows : list A) :
  order_by_desc key rows ≡ₚ rows.
Proof. apply merge_sort_Permutation. Qed.

Lemma order_by_desc_sorted {A : Type} (key : A -> Z) (rows : list A) :
  StronglySorted (later_first key) (order_by_desc key rows).
Proof. apply StronglySorted_merge_sort; apply _. Qed.

(** In a list in descending order that holds [x], a key above every other
    key puts [x] first. *)
Lemma newest_first {A : Type} (key : A -> Z) (x : A) (old sorted : list A) :
  sorted ≡ₚ x :: old ->
  StronglySorted (later_first key) sorted ->
  Forall (fun y => key y < key x) old ->
  exists rest, sorted = x :: rest /\ rest ≡ₚ old.
Proof.
  intros Hperm Hsorted Hold.
  destruct sorted as [|h rest]; [by apply Permutation_nil_cons in Hperm|].
  apply StronglySorted_cons in Hsorted as [Hh _].
  assert (Hx : x ∈ h :: rest) by (rewrite Hperm; left).
  assert (Hhin : h ∈ x :: old) by (rewrite <- Hperm; left).
  apply elem_of_cons in Hhin as [-> | Hhold].
  - exists rest. split; [done|]. by apply Permutation_cons_inv in Hperm.
  - exfalso. rewrite Forall_forall in Hold. specialize (Hold h Hhold).
    apply elem_of_cons in Hx as [-> | Hxr]; [lia|].
    rewrite Forall_forall in Hh. specialize (Hh x Hxr). unfold later_first in Hh. lia.
Qed.

Lemma get_reviews_for_app_run E timestamp appid s :
  get_reviews_for_app E timestamp appid s
  = match py_int E appid with
    | Raise e => (Raise e, s)
    | Ok k =>
        if fits_int64 k
        then (Ok (review_to_dict timestamp <$> reviews_by_date k s), s)
        else (Raise OverflowError, s)
    end.
Proof.
  unfold get_reviews_for_app, bind, lift, bind_integer, ret, raise.
  destruct (py_int E appid) as [k|e]; [|done]. by destruct (fits_int64 k).
Qed.

(** [get_reviews_for_app] leaves the store as it is.  For an appid that
    converts to an integer [k] that fits the integer column (signed, 64
    bits) it returns one dict for each review of [k] and for no other, the
    later review first; for one that converts to an integer that does not
    fit it raises [OverflowError]; for an appid that does not convert it
    raises the error of the conversion. *)
Theorem get_reviews_for_app_spec E timestamp appid s :
  match py_int E appid with
  | Ok k =>
      if fits_int64 k
      then exists rows,
             get_reviews_for_app E timestamp appid s
             = (Ok (review_to_dict timestamp <$> rows), s)
             /\ rows ≡ₚ filter (fun r => Review.appid r = k) (reviews s)
             /\ StronglySorted (later_first Review.created_at) rows
             /\ Forall (fun r => Review.appid r = k /\ r ∈ reviews s) rows
      else get_reviews_for_app E timestamp appid s = (Raise OverflowError, s)
  | Raise e => get_reviews_for_app E timestamp appid s = (Raise e, s)
  end.
Proof.
  rewrite get_reviews_for_app_run. destruct (py_int E appid) as [k|e]; [|done].
  destruct (fits_int64 k); [|done].
  exists (reviews_by_date k s). split; [done|].
  split; [apply order_by_desc_perm|]. split; [apply order_by_desc_sorted|].
  apply Forall_forall. intros r Hr. unfold reviews_by_date in Hr.
  rewrite order_by_desc_perm in Hr. by apply list_elem_of_filter in Hr.
Qed.

(** A review that was just added, with an appid and a rating that convert
    to integers that fit the integer columns (signed, 64 bits) and a text
    that has an encoding, is listed for its appid, and listed first when
    its time is later than that of every review of the appid stored before;
    the reviews stored before are all still listed. *)
Theorem add_review_then_list E timestamp now appid rating k r t s :
  py_int E appid = Ok k ->
  py_int E rating = Ok r ->
  fits_int64 k = true ->
  fits_int64 r = true ->
  encodable (Some (strip t)) = true ->
  let new := new_review now k r (strip t) s in
  exists s' rows,
    add_review_db E now appid rating (Some t) s = (Ok true, s')
    /\ get_reviews_for_app E timestamp appid s'
       = (Ok (review_to_dict timestamp <$> rows), s')
    /\ rows ≡ₚ new :: reviews_by_date k s
    /\ (Forall (fun x => Review.appid x = k -> Review.created_at x < now) (reviews s) ->
        exists rest, rows = new :: rest /\ rest ≡ₚ reviews_by_date k s).
Proof.
  intros Hk Hr Hfk Hfr Henc new.
  rewrite add_review_db_run, Hk, Hr, Hfk, Hfr, Henc. simpl.
  eexists. eexists. split; [reflexivity|].
  rewrite get_reviews_for_app_run, Hk, Hfk. split; [reflexivity|].
  assert (Hperm : reviews_by_date k
                    {| favourites := favourites s; reviews := reviews s ++ [new] |}
                  ≡ₚ new :: reviews_by_date k s).
  { unfold reviews_by_date. simpl. rewrite !order_by_desc_perm, filter_app.
    rewrite (filter_cons_True _ new) by done. simpl.
    by rewrite <- Permutation_cons_append. }
  split; [exact Hperm|].
  intros Hnew. eapply newest_first; [exact Hperm | apply order_by_desc_sorted |].
  apply Forall_forall. intros x Hx. unfold reviews_by_date in Hx.
  rewrite order_by_desc_perm in Hx. apply list_elem_of_filter in Hx as [Hxk Hxs].
  rewrite Forall_forall in Hnew. simpl. by apply Hnew.
Qed.

Lemma add_review_then_list_witness :
  get_reviews_for_app offline (fun t => t) (VInt 10)
    (snd (add_review_db offline 7 (VInt 10) (VStr "5") (Some " good ") store0))
  = (Ok [review_to_dict (fun t => t) (new_review 7 10 5 "good" store0)],
     snd (add_review_db offline 7 (VInt 10) (VStr "5") (Some " good ") store0)).
Proof.
  destruct (add_review_then_list offline (fun t => t) 7 (VInt 10) (VStr "5") 10 5 " good "
              store0 eq_refl eq_refl eq_refl eq_refl eq_refl)
    as (s' & rows & Hadd & Hget & _ & Hfirst).
  destruct Hfirst as (rest & -> & Hrest); [by constructor|].
  apply Permutation_nil_r in Hrest. subst rest.
  rewrite Hadd. exact Hget.
Defined.

(** [get_all_favourites] leaves the store as it is and returns one dict for
    each favourite, the one added later first; a favourite added, for an
    appid that fits the integer column and with a name and an image that
    have an encoding, at a time later than all others is the first of the
    list. *)
Theorem get_all_favourites_spec s :
  exists rows,
    get_all_favourites s = (Ok (favourite_to_dict <$> rows), s)
    /\ favourites_page s = (Ok (FavouritesList (favourite_to_dict <$> rows)), s)
    /\ rows ≡ₚ favourites s
    /\ StronglySorted (later_first Favourite.added_at) rows
    /\ forall E now appid k n image,
         py_int E appid = Ok k -> fits_int64 k = true ->
         encodable (Some n) = true -> encodable image = true ->
         k ∉ favourite_appids s ->
         Forall (fun x => Favourite.added_at x < now) (favourites s) ->
         exists rest,
           fst (get_all_favourites (snd (add_favourite_db E now appid (Some n) image s)))
           = Ok (favourite_to_dict <$> new_favourite now k n image s :: rest)
           /\ rest ≡ₚ favourites s.
Proof.
  exists (favourites_by_date s). split; [done|]. split; [done|].
  split; [apply order_by_desc_perm|]. split; [apply order_by_desc_sorted|].
  intros E now appid k n image Hk Hfit Hn Hi Hnin Hold.
  rewrite (add_favourite_db_absent E now appid k n image s Hk Hfit Hn Hi Hnin). simpl.
  unfold get_all_favourites. simpl.
  destruct (newest_first Favourite.added_at (new_favourite now k n image s) (favourites s)
              (favourites_by_date
                 {| favourites := favourites s ++ [new_favourite now k n image s];
                    reviews := reviews s |}))
    as (rest & -> & Hrest).
  - unfold favourites_by_date. simpl. rewrite order_by_desc_perm.
    by rewrite <- Permutation_cons_append.
  - apply order_by_desc_sorted.
  - exact Hold.
  - by exists rest.
Qed.

(** * How the store operations compose *)

Lemma find_appid_last (k : Z) (l : list Favourite.t) (row : Favourite.t) :
  k ∉ Favourite.appid <$> l -> Favourite.appid row = k ->
  List.find (fun r => Favourite.appid r =? k) (l ++ [row]) = Some row.
Proof.
  intros Hnin Hrow. induction l as [|x l IH]; simpl.
  - by rewrite Hrow, Z.eqb_refl.
  - rewrite fmap_cons, not_elem_of_cons in Hnin. destruct Hnin as [Hne Hnin].
    destruct (Z.eqb_spec (Favourite.appid x) k); [congruence | by apply IH].
Qed.

(** Adding a favourite that was not there, for an appid that fits the
    integer column and with a name and an image that have an encoding, and
    removing it again gives the store back as it was. *)
Theorem add_then_remove_favourite E now appid k n image s :
  py_int E appid = Ok k ->
  fits_int64 k = true ->
  encodable (Some n) = true ->
  encodable image = true ->
  k ∉ favourite_appids s ->
  remove_favourite_db E appid (snd (add_favourite_db E now appid (Some n) image s))
  = (Ok true, s).
Proof.
  intros Hk Hfit Hn Hi Hnin.
  rewrite (add_favourite_db_absent E now appid k n image s Hk Hfit Hn Hi Hnin). simpl.
  rewrite remove_favourite_db_run, Hk, Hfit. simpl.
  rewrite (find_appid_last k) by done. simpl.
  rewrite filter_app, filter_cons_False by (intros H; by apply H).
  rewrite filter_nil, app_nil_r, filter_keeps_all; [by destruct s|].
  apply Forall_forall. intros r Hr. simpl.
  assert (Favourite.id r < next_id (Favourite.id <$> favourites s))
    by (by apply next_id_fresh, list_elem_of_fmap_2).
  lia.
Qed.

Lemma add_then_remove_favourite_witness :
  remove_favourite_db offline (VStr "10")
    (snd (add_favourite_db offline 0 (VStr "10") (Some "CS") None store0))
  = (Ok true, store0).
Proof.
  apply (add_then_remove_favourite offline 0 (VStr "10") 10 "CS" None store0
           eq_refl eq_refl eq_refl eq_refl).
  vm_compute. intros H. inversion H.
Defined.

(** For an appid that fits the integer column: after [add_favourite_db],
    with a name and an image that have an encoding, the appid is
    favourited, whether the call inserted or not; after
    [remove_favourite_db] on a table with at most one row for each appid it
    is not. *)
Theorem favourite_membership E now appid k n image s :
  py_int E appid = Ok k ->
  fits_int64 k = true ->
  encodable (Some n) = true ->
  encodable image = true ->
  k ∈ favourite_appids (snd (add_favourite_db E now appid (Some n) image s))
  /\ (unique_appid s -> k ∉ favourite_appids (snd (remove_favourite_db E appid s))).
Proof.
  intros Hk Hfit Hn Hi. split.
  - destruct (decide (k ∈ favourite_appids s)) as [Hin|Hnin].
    + by rewrite (add_favourite_db_present E now appid k (Some n) image s Hk Hfit Hin).
    + rewrite (add_favourite_db_absent E now appid k n image s Hk Hfit Hn Hi Hnin). simpl.
      unfold favourite_appids. simpl. rewrite fmap_app. apply elem_of_app. right. left.
  - intros Hu. destruct (decide (k ∈ favourite_appids s)) as [Hin|Hnin].
    + destruct (find_appid_is_Some k (favourites s) Hin) as [row Hrow].
      destruct (find_appid_Some _ _ _ Hrow) as (l1 & l2 & Hl & Hrk & Hl1).
      rewrite remove_favourite_db_run, Hk, Hfit, Hrow. simpl.
      unfold favourite_appids. simpl.
      intros Hin'. apply list_elem_of_fmap in Hin' as (r & Hr & Hrin).
      apply list_elem_of_filter in Hrin as [Hid Hrin].
      unfold unique_appid, favourite_appids in Hu. rewrite Hl in Hu, Hrin.
      rewrite fmap_app, fmap_cons in Hu.
      apply NoDup_app in Hu as (_ & Hdisj & Hu). apply NoDup_cons in Hu as [Hl2 _].
      apply elem_of_app in Hrin as [Hrin | Hrin].
      * apply Hl1. rewrite Hr. by apply list_elem_of_fmap_2.
      * apply elem_of_cons in Hrin as [-> | Hrin]; [done|].
        apply Hl2. rewrite Hrk, Hr. by apply list_elem_of_fmap_2.
    + by rewrite (remove_favourite_db_absent E appid k s Hk Hfit Hnin).
Qed.

Lemma favourite_membership_witness :
  10 ∈ favourite_appids
         (snd (add_favourite_db offline 0 (VStr "10") (Some "CS") None store0))
  /\ 10 ∉ favourite_appids (snd (remove_favourite_db offline (VStr "10") store0)).
Proof.
  destruct (favourite_membership offline 0 (VStr "10") 10 "CS" None store0
              eq_refl eq_refl eq_refl eq_refl) as [H1 H2].
  split; [exact H1 | apply H2, NoDup_nil_2].
Defined.

(** Adding or removing the favourite for one appid leaves the rows of every
    other appid as they are (for the removal, in a table whose primary key
    is a key), and neither touches the reviews. *)
Theorem favourite_frame E now appid k name image s k' :
  py_int E appid = Ok k ->
  k' <> k ->
  rows_of k' (snd (add_favourite_db E now appid name image s)) = rows_of k' s
  /\ reviews (snd (add_favourite_db E now appid name image s)) = reviews s
  /\ reviews (snd (remove_favourite_db E appid s)) = reviews s
  /\ (unique_id s -> rows_of k' (snd (remove_favourite_db E appid s)) = rows_of k' s).
Proof.
  intros Hk Hne.
  rewrite add_favourite_db_run, remove_favourite_db_run, Hk.
  destruct (fits_int64 k); [|done].
  destruct (List.find _ (favourites s)) as [row|] eqn:Hfind; simpl.
  - repeat split; try done. intros Hid.
    destruct (find_appid_Some _ _ _ Hfind) as (l1 & l2 & Hl & Hrk & Hl1).
    unfold rows_of, unique_id in *. simpl. rewrite Hl in Hid. rewrite Hl, delete_by_id by done.
    rewrite !filter_app, filter_cons_False by congruence. done.
  - destruct (encodable name && encodable image); [|done].
    destruct name as [n|]; simpl; [|done].
    repeat split; try done.
    unfold rows_of. simpl. rewrite filter_app, filter_cons_False by (simpl; congruence).
    by rewrite filter_nil, app_nil_r.
Qed.

Lemma favourite_frame_witness :
  rows_of 20 (snd (add_favourite_db offline 0 (VStr "10") (Some "CS") None store0))
  = rows_of 20 store0.
Proof.
  destruct (favourite_frame offline 0 (VStr "10") 10 (Some "CS") None store0 20 eq_refl)
    as [H _].
  - discriminate.
  - exact H.
Defined.

Lemma run_op_reviews_prefix E op s : reviews s `prefix_of` reviews (run_op E s op).
Proof.
  destruct op as [now appid name image|appid|now appid rating txt]; simpl.
  - rewrite add_favourite_db_run.
    destruct (py_int E appid) as [k|]; [|done]. destruct (fits_int64 k); [|done].
    destruct (List.find _ (favourites s)); [done|].
    destruct (encodable name && encodable image); [|done]. by destruct name.
  - rewrite remove_favourite_db_run.
    destruct (py_int E appid) as [k|]; [|done]. destruct (fits_int64 k); [|done].
    by destruct (List.find _ (favourites s)).
  - rewrite add_review_db_run.
    destruct (py_int E appid) as [k|]; [|done]. destruct (py_int E rating) as [r|]; [|done].
    destruct txt as [t|]; [|done]. destruct (fits_int64 k && fits_int64 r); [|done].
    destruct (encodable (Some (strip t))); [|done].
    simpl. by apply prefix_app_r.
Qed.

Lemma run_op_review_ids E op s :
  NoDup (Review.id <$> reviews s) -> NoDup (Review.id <$> reviews (run_op E s op)).
Proof.
  intros Hu. destruct op as [now appid name image|appid|now appid rating txt]; simpl.
  - rewrite add_favourite_db_run.
    destruct (py_int E appid) as [k|]; [|done]. destruct (fits_int64 k); [|done].
    destruct (List.find _ (favourites s)); [done|].
    destruct (encodable name && encodable image); [|done]. by destruct name.
  - rewrite remove_favourite_db_run.
    destruct (py_int E appid) as [k|]; [|done]. destruct (fits_int64 k); [|done].
    by destruct (List.find _ (favourites s)).
  - rewrite add_review_db_run.
    destruct (py_int E appid) as [k|]; [|done]. destruct (py_int E rating) as [r|]; [|done].
    destruct txt as [t|]; [|done]. destruct (fits_int64 k && fits_int64 r); [|done].
    destruct (encodable (Some (strip t))); [|done]. simpl.
    rewrite fmap_app. apply NoDup_app. split; [done|]. split; [|apply NoDup_singleton].
    intros x Hx Hx'. apply list_elem_of_singleton in Hx'. subst x. simpl in Hx.
    apply next_id_fresh in Hx. lia.
Qed.

(** Reviews are only ever appended: whatever operations run, the reviews
    stored before are still there, unchanged and in place, and review ids
    stay distinct. *)
Theorem reviews_append_only E ops s :
  reviews s `prefix_of` reviews (run_ops E ops s)
  /\ (NoDup (Review.id <$> reviews s) -> NoDup (Review.id <$> reviews (run_ops E ops s))).
Proof.
  unfold run_ops. revert s. induction ops as [|op ops IH]; intros s; simpl; [done|].
  destruct (IH (run_op E s op)) as [Hpre Hids]. split.
  - etransitivity; [apply run_op_reviews_prefix | exact Hpre].
  - intros Hu. by apply Hids, run_op_review_ids.
Qed.

(** * The favourites routes and the detail page *)

Lemma blank_Some (a : string) : a <> EmptyString -> blank (Some a) = false.
Proof. intros Ha. unfold blank; simpl. by destruct (String.eqb_spec a ""). Qed.

(** Posting the same valid form (its fields decoded text, so text with an
    encoding), with an appid that converts to an integer that fits the
    integer column, to [/favourites/add] twice: the first
    request says [Added to favourites.] and stores one row, the second says
    [Already in favourites.] and changes nothing; both redirect to the
    referrer, or to the favourites page when there is none. *)
Theorem favourites_add_twice E now now' f referrer a n k s :
  form_get f "appid" = Some a -> a <> EmptyString ->
  form_get f "name" = Some n -> n <> EmptyString ->
  int_of_string E a = Some k ->
  fits_int64 k = true ->
  encodable (Some n) = true ->
  encodable (form_get f "image") = true ->
  k ∉ favourite_appids s ->
  let row := new_favourite now k n (form_get f "image") s in
  let s1 := {| favourites := favourites s ++ [row]; reviews := reviews s |} in
  favourites_add E now f referrer s = (Ok (added_notice referrer), s1)
  /\ favourites_add E now' f referrer s1 = (Ok (already_notice referrer), s1)
  /\ rows_of k s1 = [row].
Proof.
  intros Ha Hane Hn Hnne Hk Hfit Hen Hei Hnin row s1.
  assert (Hint : py_int E (of_form (Some a)) = Ok k) by (simpl; by rewrite Hk).
  assert (Hin1 : k ∈ favourite_appids s1).
  { unfold favourite_appids, s1; simpl. rewrite fmap_app. apply elem_of_app. right. left. }
  unfold favourites_add. rewrite Ha, Hn, !blank_Some by done. simpl. unfold bind.
  rewrite (add_favourite_db_absent E now (VStr a) k n _ s Hint Hfit Hen Hei Hnin).
  rewrite (add_favourite_db_present E now' (VStr a) k (Some n) _ s1 Hint Hfit Hin1).
  repeat split.
  unfold rows_of, s1; simpl. rewrite filter_app. fold (rows_of k s).
  rewrite rows_of_absent by done. by rewrite filter_cons_True.
Qed.

Lemma favourites_add_twice_witness :
  favourites_add offline 0 [("appid", "10"); ("name", "CS")] None store0
  = (Ok (added_notice None),
     {| favourites := [new_favourite 0 10 "CS" None store0]; reviews := [] |})
  /\ favourites_add offline 1 [("appid", "10"); ("name", "CS")] None
       {| favourites := [new_favourite 0 10 "CS" None store0]; reviews := [] |}
     = (Ok (already_notice None),
        {| favourites := [new_favourite 0 10 "CS" None store0]; reviews := [] |}).
Proof.
  destruct (favourites_add_twice offline 0 1 [("appid", "10"); ("name", "CS")] None
              "10" "CS" 10 store0)
    as (H1 & H2 & _); try reflexivity; try discriminate.
  - vm_compute. intros H. inversion H.
  - split; [exact H1 | exact H2].
Defined.

(** [/favourites/add] with the appid or the name missing or empty, and
    [/favourites/remove] with the appid missing or empty, flash a warning,
    redirect and leave the store alone.  [/favourites/remove] with an appid
    that converts to an integer that fits the integer column says
    [Removed from favourites.] when a row was there and
    [Not in favourites.] when none was, and redirects to the favourites
    page; with one that converts to an integer that does not fit it raises
    [OverflowError] and leaves the store alone. *)
Theorem favourites_routes_validation E f s :
  (forall now referrer,
     blank (form_get f "appid") = true \/ blank (form_get f "name") = true ->
     favourites_add E now f referrer s = (Ok (missing_details_notice referrer), s))
  /\ (blank (form_get f "appid") = true ->
      favourites_remove E f s
      = (Ok {| flashed := [("No app specified.", "warning")]; location := favourites_url |}, s))
  /\ (forall a k,
        form_get f "appid" = Some a -> a <> EmptyString -> int_of_string E a = Some k ->
        if fits_int64 k
        then exists msg s',
               favourites_remove E f s
               = (Ok {| flashed := [(msg, "info")]; location := favourites_url |}, s')
               /\ (k ∈ favourite_appids s -> msg = "Removed from favourites.")
               /\ (k ∉ favourite_appids s -> msg = "Not in favourites." /\ s' = s)
        else favourites_remove E f s = (Raise OverflowError, s)).
Proof.
  split; [|split].
  - intros now referrer Hb. unfold favourites_add.
    destruct Hb as [-> | ->]; [done|]. by rewrite orb_true_r.
  - intros Hb. unfold favourites_remove. by rewrite Hb.
  - intros a k Ha Hane Hk. unfold favourites_remove. rewrite Ha, blank_Some by done.
    assert (Hint : py_int E (of_form (Some a)) = Ok k) by (simpl; by rewrite Hk).
    unfold bind. rewrite remove_favourite_db_run, Hint.
    destruct (fits_int64 k); [|done].
    destruct (List.find _ (favourites s)) as [row|] eqn:Hfind; simpl.
    + eexists. eexists. split; [reflexivity|]. split; [done|].
      intros Hnin. apply find_appid_None in Hnin. congruence.
    + eexists. eexists. split; [reflexivity|]. split; [|done].
      intros Hin. apply find_appid_None in Hfind. done.
Qed.

(** [/game/<appid>] makes the requests of the enrichment and no other, and
    does not write.  When the enrichment returns nothing it flashes
    [Game details unavailable.] and redirects to the home page.  When the
    enrichment returns an item and the appid fits the integer column
    (signed, 64 bits) it shows the item with the reviews of that appid, the
    later first; when the appid does not fit, the review query raises
    [OverflowError].  The enrichment itself never raises. *)
Theorem game_detail_spec E timestamp appid tr s :
  exists r tr',
    game_detail E timestamp appid tr s = (r, tr')
    /\ tr' = snd (get_steam_game E appid "english" tr)
    /\ match fst (get_steam_game E appid "english" tr) with
       | Ok (Some g) =>
           if fits_int64 appid
           then exists rows,
                  r = Ok (GameDetail g (review_to_dict timestamp <$> rows))
                  /\ rows ≡ₚ filter (fun x => Review.appid x = appid) (reviews s)
                  /\ StronglySorted (later_first Review.created_at) rows
           else r = Raise OverflowError
       | Ok None => r = Ok (Redirect details_unavailable)
       | Raise _ => False
       end.
Proof.
  unfold game_detail.
  destruct (get_steam_game_returns E appid "english" tr) as (o & tr' & -> & _). simpl.
  destruct o as [g|]; [|by eexists; eexists].
  rewrite get_reviews_for_app_run. simpl.
  destruct (fits_int64 appid).
  - eexists. eexists. split; [reflexivity|]. split; [done|].
    exists (reviews_by_date appid s). split; [done|].
    split; [apply order_by_desc_perm | apply order_by_desc_sorted].
  - by eexists; eexists.
Qed.

(** A review posted with a rating that converts and a text that is not
    blank (a form field is decoded text, so text with an encoding), the
    appid and the rating fitting the integer columns (signed, 64 bits), is
    on the detail page of its appid at the next visit. *)
Theorem review_posted_then_shown E timestamp now appid f r t k s tr g tr' :
  form_get f "rating" = Some r -> r <> EmptyString -> int_of_string E r = Some k ->
  form_get f "text" = Some t -> strip t <> EmptyString ->
  encodable (Some (strip t)) = true ->
  fits_int64 appid = true -> fits_int64 k = true ->
  get_steam_game E appid "english" tr = (Ok (Some g), tr') ->
  exists s' rows,
    add_review_route E now appid f s = (Ok (review_submitted appid), s')
    /\ game_detail E timestamp appid tr s'
       = (Ok (GameDetail g (review_to_dict timestamp <$> rows)), tr')
    /\ new_review now appid k (strip t) s ∈ rows
    /\ forall old, old ∈ reviews s -> Review.appid old = appid -> old ∈ rows.
Proof.
  intros Hr Hrne Hk Ht Htne Henc Hfa Hfk Hg.
  rewrite add_review_route_run. unfold game_detail.
  rewrite Hr, Ht, blank_Some, Hg by done. simpl.
  destruct (String.eqb_spec (strip t) ""); [done|].
  simpl in Henc. rewrite Hk, Hfa, Hfk, Henc. simpl.
  eexists. eexists. split; [reflexivity|].
  rewrite get_reviews_for_app_run. simpl. rewrite Hfa. split; [reflexivity|].
  unfold reviews_by_date. simpl. split.
  - rewrite order_by_desc_perm. apply list_elem_of_filter. split; [done|].
    apply elem_of_app. right. left.
  - intros old Hold Hoa. rewrite order_by_desc_perm. apply list_elem_of_filter.
    split; [done|]. apply elem_of_app. by left.
Qed.

Lemma review_posted_then_shown_witness :
  exists s' rows,
    add_review_route shop 7 10 [("rating", "5"); ("text", " good ")] store0
    = (Ok (review_submitted 10), s')
    /\ game_detail shop (fun t => t) 10 [] s'
       = (Ok (GameDetail (counter_strike_game counter_strike_embed)
                (review_to_dict (fun t => t) <$> rows)),
          [appdetails_url 10 "english"; counter_strike_search])
    /\ new_review 7 10 5 (strip " good ") store0 ∈ rows
    /\ forall old, old ∈ reviews store0 -> Review.appid old = 10 -> old ∈ rows.
Proof.
  apply (review_posted_then_shown shop (fun t => t) 7 10
           [("rating", "5"); ("text", " good ")] "5" " good " 5 store0 []);
    first [reflexivity | discriminate | (vm_compute; discriminate)].
Defined.

Lemma index_stable_witness :
  exists games tr',
    index shop [] = (Ok games, tr')
    /\ (length games <= 9)%nat
    /\ NoDup (feed_appids games)
    /\ Forall is_Some games
    /\ exists top_ids,
         fetch_top_sellers shop 9 [] = (Ok top_ids, [] ++ [featured_url])
         /\ feed_appids games
            = Some <$> filter (fun aid => enriches shop aid = true) top_ids.
Proof.
  apply index_stable. intros tr tr' url. reflexivity.
Defined.
